(** * Verification of the spreadsheet reconciliation core of comparador-excel

    Shallow embedding of [src/backend/excel_processor.py]: column detection,
    header-row detection, code and quantity normalisation, cleaning,
    aggregation by code and the outer-join comparison.

    Modelling conventions.
    - A Python [str] is a list of Unicode code points ([ustr]); source
      literals are written in UTF-8 and decoded by [u].
    - [str.lower], [str.upper] and [str.isspace] are modelled on the Latin-1
      range, which covers the Spanish headers and keywords of the program.
    - A pandas cell read with [dtype=str] is [Some text] or [None] (NaN).
    - A Python [float] produced from text is modelled by its exact decimal
      value in [Q] (IEEE rounding is a function of that value, so equal exact
      values give equal floats); quantities in tables are exact rationals.
    - pandas sorts group keys and outer-merge keys by Python string order,
      which is the lexicographic order on code points ([lex_le]). *)

From Stdlib Require Import NArith ZArith QArith.
From Stdlib Require Import String Ascii.
From stdpp Require Import base list sorting gmap.

Open Scope N_scope.

(* ------------------------------------------------------------------ *)
(** ** Text *)

Abbreviation uchar := N.
Abbreviation ustr := (list N).

(** UTF-8 decoding of source literals into code points. *)
Fixpoint utf8_decode (l : list N) : ustr :=
  match l with
  | [] => []
  | b :: r =>
      if b <? 128 then b :: utf8_decode r
      else if b <? 224 then
        match r with
        | c :: r' => ((b - 192) * 64 + (c - 128)) :: utf8_decode r'
        | [] => [b]
        end
      else if b <? 240 then
        match r with
        | c :: d :: r' =>
            ((b - 224) * 4096 + (c - 128) * 64 + (d - 128)) :: utf8_decode r'
        | _ => [b]
        end
      else b :: utf8_decode r
  end.

Definition u (s : string) : ustr :=
  utf8_decode (map (fun a => N.of_nat (nat_of_ascii a)) (list_ascii_of_string s)).
Arguments u s%_string.

(** [str.isspace] (the whitespace set of [str.strip], [float] and [\s]). *)
Definition py_isspace (c : uchar) : bool :=
  ((9 <=? c) && (c <=? 13)) || ((28 <=? c) && (c <=? 32)) ||
  (c =? 133) || (c =? 160) || (c =? 5760) ||
  ((8192 <=? c) && (c <=? 8202)) || (c =? 8232) || (c =? 8233) ||
  (c =? 8239) || (c =? 8287) || (c =? 12288).

Definition lower_char (c : uchar) : uchar :=
  if ((65 <=? c) && (c <=? 90)) || ((192 <=? c) && (c <=? 222) && negb (c =? 215))
  then c + 32 else c.

Definition upper_char (c : uchar) : ustr :=
  if ((97 <=? c) && (c <=? 122)) || ((224 <=? c) && (c <=? 254) && negb (c =? 247))
  then [c - 32]
  else if c =? 223 then [83; 83]
  else if c =? 255 then [376]
  else if c =? 181 then [924]
  else [c].

Definition py_lower (s : ustr) : ustr := map lower_char s.
Definition py_upper (s : ustr) : ustr := s ≫= upper_char.

Fixpoint lstrip (s : ustr) : ustr :=
  match s with
  | c :: r => if py_isspace c then lstrip r else s
  | [] => []
  end.

Definition rstrip (s : ustr) : ustr := reverse (lstrip (reverse s)).

(** [str.strip()] *)
Definition py_strip (s : ustr) : ustr := rstrip (lstrip s).

(** [s.endswith(t)] *)
Definition ends_with (t s : ustr) : bool :=
  bool_decide (drop (length s - length t) s = t).

(** [c in s] for a one-character [c] *)
Definition contains_char (c : uchar) (s : ustr) : bool := bool_decide (c ∈ s).

(** [s.count(c)] *)
Definition count_char (c : uchar) (s : ustr) : nat := length (filter (λ x, x = c) s).

(** [s.rfind(c)]: index of the last occurrence, -1 if none. *)
Fixpoint rfind_from (c : uchar) (i : Z) (s : ustr) (acc : Z) : Z :=
  match s with
  | [] => acc
  | x :: r => rfind_from c (i + 1)%Z r (if x =? c then i else acc)
  end.
Definition rfind (c : uchar) (s : ustr) : Z := rfind_from c 0 s (-1).

(** [s.replace(c, t)] for a one-character [c] *)
Definition replace_char (c : uchar) (t : ustr) (s : ustr) : ustr :=
  s ≫= (λ x, if x =? c then t else [x]).

(** Python string order: lexicographic on code points. *)
Fixpoint lex_leb (a b : ustr) : bool :=
  match a, b with
  | [], _ => true
  | _ :: _, [] => false
  | x :: a', y :: b' => if x <? y then true else if y <? x then false else lex_leb a' b'
  end.

Definition lex_le (a b : ustr) : Prop := lex_leb a b = true.

#[global] Instance lex_le_dec : RelDecision lex_le.
Proof. intros a b. unfold lex_le. apply _. Defined.

(** [sorted(...)] on strings *)
Definition sort_str (l : list ustr) : list ustr := merge_sort lex_le l.

(** [list(dict.fromkeys(l))]: first occurrences, in order. *)
Fixpoint dedup (l : list ustr) : list ustr :=
  match l with
  | [] => []
  | x :: r => x :: filter (λ y, y ≠ x) (dedup r)
  end.

(* ------------------------------------------------------------------ *)
(** ** Reconciler: [compare_dataframes] and [create_summary_data] *)

(** A row of an aggregated table: columns [Código], [Producto], [Cantidad]. *)
Record canon_row := CanonRow {
  c_code : ustr;
  c_prod : ustr;
  c_qty : Q
}.

Definition codes (t : list canon_row) : list ustr := map c_code t.

(** pandas' [_merge] indicator column *)
Inductive merge_ind := Both | LeftOnly | RightOnly.

#[global] Instance merge_ind_eq_dec : EqDecision merge_ind.
Proof. solve_decision. Defined.

(** A row of [pd.merge(df1, df2, on='Código', how='outer', indicator=True)];
    [None] is a NaN produced by the outer join. *)
Record merged_row := MergedRow {
  m_code : ustr;
  m_prod1 : option ustr;
  m_qty1 : option Q;
  m_prod2 : option ustr;
  m_qty2 : option Q;
  m_ind : merge_ind
}.

Definition with_code (k : ustr) (t : list canon_row) : list canon_row :=
  filter (λ r, c_code r = k) t.

Definition merge_both (a b : canon_row) : merged_row :=
  MergedRow (c_code a) (Some (c_prod a)) (Some (c_qty a)) (Some (c_prod b)) (Some (c_qty b)) Both.
Definition merge_left (a : canon_row) : merged_row :=
  MergedRow (c_code a) (Some (c_prod a)) (Some (c_qty a)) None None LeftOnly.
Definition merge_right (b : canon_row) : merged_row :=
  MergedRow (c_code b) None None (Some (c_prod b)) (Some (c_qty b)) RightOnly.

(** The rows of the outer merge for one key: the cartesian product of the
    matching rows, or the unmatched rows of the side that has the key. *)
Definition merge_key (df1 df2 : list canon_row) (k : ustr) : list merged_row :=
  match with_code k df1, with_code k df2 with
  | [], bs => map merge_right bs
  | as_, [] => map merge_left as_
  | as_, bs => as_ ≫= (λ a, map (merge_both a) bs)
  end.

(** Outer merge: the union of the keys, sorted lexicographically. *)
Definition outer_merge (df1 df2 : list canon_row) : list merged_row :=
  sort_str (dedup (codes df1 ++ codes df2)) ≫= merge_key df1 df2.

(** A row of [comparison_complete]. *)
Record cmp_row := CmpRow {
  r_code : ustr;
  r_prod : ustr;
  r_qty1 : Q;
  r_qty2 : Q;
  r_diff : Q
}.

(** [Producto]: [Producto_Archivo1.fillna('').replace('', NA)], then
    [fillna(Producto_Archivo2.fillna(''))], then [str.strip()]. *)
Definition merged_product (m : merged_row) : ustr :=
  let p1 := match m_prod1 m with
            | Some p => if decide (p = []) then None else Some p
            | None => None
            end in
  py_strip (match p1 with Some p => p | None => default [] (m_prod2 m) end).

Definition cmp_of_merged (m : merged_row) : cmp_row :=
  let q1 := default 0%Q (m_qty1 m) in
  let q2 := default 0%Q (m_qty2 m) in
  CmpRow (m_code m) (merged_product m) q1 q2 (q1 - q2)%Q.

Record comparison := Comparison {
  comparison_complete : list cmp_row;
  only_differences : list cmp_row;
  not_in_file2 : list canon_row;
  not_in_file1 : list canon_row
}.

Definition compare_dataframes (df1 df2 : list canon_row) : comparison :=
  let merged := outer_merge df1 df2 in
  let complete := map cmp_of_merged merged in
  Comparison
    complete
    (filter (λ r, negb (Qeq_bool (r_diff r) 0)) complete)
    (map (λ m, CanonRow (m_code m) (merged_product m) (default 0%Q (m_qty1 m)))
         (filter (λ m, m_ind m = LeftOnly) merged))
    (map (λ m, CanonRow (m_code m) (merged_product m) (default 0%Q (m_qty2 m)))
         (filter (λ m, m_ind m = RightOnly) merged)).

Definition qsum (l : list Q) : Q := foldr Qplus 0%Q l.

(** The statistics of [create_summary_data]. *)
Record summary := Summary {
  s_records1 : nat;
  s_qty_sum1 : Q;
  s_records2 : nat;
  s_qty_sum2 : Q;
  s_total_compared : nat;
  s_with_differences : nat;
  s_only_in_1 : nat;
  s_only_in_2 : nat;
  s_total_difference : Q
}.

Definition create_summary_data (df1 df2 : list canon_row) (res : comparison) : summary :=
  Summary (length df1) (qsum (map c_qty df1))
          (length df2) (qsum (map c_qty df2))
          (length (comparison_complete res)) (length (only_differences res))
          (length (not_in_file2 res)) (length (not_in_file1 res))
          (qsum (map r_diff (comparison_complete res))).

(* ------------------------------------------------------------------ *)
(** ** Python [float(str)] *)

(** The value of a Python float parsed from text: the exact decimal value of
    a finite numeral, an infinity, or NaN. *)
Inductive pyfloat :=
  | PFin (q : Q)
  | PInf (neg : bool)
  | PNaN.

(** Python [==] on floats, at the level of exact values. *)
Definition pf_eq (x y : pyfloat) : Prop :=
  match x, y with
  | PFin a, PFin b => (a == b)%Q
  | PInf a, PInf b => a = b
  | _, _ => False
  end.

Definition is_digit (c : uchar) : bool := (48 <=? c) && (c <=? 57).

(** Underscore check of [_Py_string_to_number_with_underscores]: an
    underscore must follow a digit and precede a digit; they are removed. *)
Fixpoint strip_underscores (prev : option uchar) (s : ustr) : option ustr :=
  match s with
  | [] => if decide (prev = Some 95) then None else Some []
  | c :: r =>
      if c =? 95 then
        match prev with
        | Some p => if is_digit p then strip_underscores (Some c) r else None
        | None => None
        end
      else if bool_decide (prev = Some 95) && negb (is_digit c) then None
      else cons c <$> strip_underscores (Some c) r
  end.

Fixpoint span_digits (s : ustr) : ustr * ustr :=
  match s with
  | c :: r => if is_digit c then let '(d, rest) := span_digits r in (c :: d, rest) else ([], s)
  | [] => ([], [])
  end.

Definition digits_value (d : ustr) : Z :=
  foldl (λ acc c, acc * 10 + Z.of_N (c - 48))%Z 0%Z d.

Definition parse_sign (s : ustr) : bool * ustr :=
  match s with
  | 43 :: r => (false, r)
  | 45 :: r => (true, r)
  | _ => (false, s)
  end.

(** The value [(-1)^neg * m * 10^e]. *)
Definition dec_value (neg : bool) (m e : Z) : Q :=
  let v := if (0 <=? e)%Z then Qmake (m * 10 ^ e) 1 else Qmake m (Pos.pow 10 (Z.to_pos (- e))) in
  if neg then Qopp v else v.

(** [PyOS_string_to_double] on the whole (stripped) text: optional sign, then
    [inf], [infinity] or [nan] in any case, or a decimal numeral with at least
    one digit and an optional exponent. *)
Definition parse_float (s : ustr) : option pyfloat :=
  let '(neg, r) := parse_sign s in
  if decide (py_lower r = u "inf" ∨ py_lower r = u "infinity") then Some (PInf neg)
  else if decide (py_lower r = u "nan") then Some PNaN
  else
    let '(ip, r1) := span_digits r in
    let '(fp, r2) := match r1 with 46 :: r1' => span_digits r1' | _ => ([], r1) end in
    if decide (ip ++ fp = []) then None
    else
      let m := digits_value (ip ++ fp) in
      let k := Z.of_nat (length fp) in
      match r2 with
      | [] => Some (PFin (dec_value neg m (- k)))
      | e :: r3 =>
          if (e =? 101) || (e =? 69) then
            let '(eneg, r4) := parse_sign r3 in
            let '(ed, r5) := span_digits r4 in
            if decide (ed = [] ∨ r5 ≠ []) then None
            else
              let x := digits_value ed in
              Some (PFin (dec_value neg m ((if eneg then - x else x) - k)))
          else None
      end.

(** [float(s)]; [None] is the [ValueError]. *)
Definition py_float (s : ustr) : option pyfloat :=
  match strip_underscores None s with
  | Some s' => parse_float (py_strip s')
  | None => None
  end.

(* ------------------------------------------------------------------ *)
(** ** [clean_quantity] *)

(** Lines 141-191 of [clean_quantity]: [None] is an early [return 0.0];
    otherwise the text handed to [float]. *)
Definition quantity_text (value : option ustr) : option ustr :=
  match value with
  | None => None
  | Some v =>
      let val_str := py_strip v in
      if decide (val_str = [] ∨ py_upper val_str = u "NAN") then None
      else
        let val_str := replace_char 32 [] val_str in
        let dots := count_char 46 val_str in
        let commas := count_char 44 val_str in
        if decide (dots = 1%nat ∧ commas = 0%nat) then Some val_str
        else if decide (dots = 0%nat ∧ commas = 1%nat) then
          let comma_pos := rfind 44 val_str in
          let after_comma := (Z.of_nat (length val_str) - comma_pos - 1)%Z in
          if (after_comma <=? 2)%Z then Some (replace_char 44 [46] val_str)
          else Some (replace_char 44 [] val_str)
        else if decide (1 ≤ dots ∧ 1 ≤ commas)%nat then
          let last_dot := rfind 46 val_str in
          let last_comma := rfind 44 val_str in
          if (last_dot <? last_comma)%Z
          then Some (replace_char 44 [46] (replace_char 46 [] val_str))
          else Some (replace_char 44 [] val_str)
        else if decide (1 < commas)%nat then Some (replace_char 44 [] val_str)
        else if decide (1 < dots)%nat then Some (replace_char 46 [] val_str)
        else Some val_str
  end.

(** [try: return float(val_str) except ValueError: return 0.0] *)
Definition float_or_zero (s : ustr) : pyfloat :=
  match py_float s with Some x => x | None => PFin 0 end.

Definition clean_quantity (value : option ustr) : pyfloat :=
  match quantity_text value with
  | None => PFin 0
  | Some val_str => float_or_zero val_str
  end.

(** [sep.join(blocks)] *)
Fixpoint join_with (sep : uchar) (bs : list ustr) : ustr :=
  match bs with
  | [] => []
  | [b] => b
  | b :: r => b ++ sep :: join_with sep r
  end.

(** A block of a numeral: no separator and no whitespace. *)
Definition plain_block (b : ustr) : Prop :=
  Forall (λ c, c ≠ 46 ∧ c ≠ 44 ∧ py_isspace c = false) b.

(* ------------------------------------------------------------------ *)
(** ** [decimal.Decimal] and [clean_code_format] *)

(** The values a [Decimal] can hold: [(-1)^neg * coef * 10^exp], an
    infinity, or a quiet or signaling NaN. *)
Inductive py_decimal :=
  | DFinite (neg : bool) (coef : Z) (exp : Z)
  | DInf (neg : bool)
  | DNaN (signaling : bool).

Definition all_digits (s : ustr) : bool := forallb is_digit s.

(** [Decimal(s)] for a string, [None] being [InvalidOperation]: surrounding
    whitespace is stripped and underscores are ignored, then the numeric
    string grammar of the decimal module is read: an optional sign, then
    [Inf], [Infinity], [NaN] or [sNaN] (in any case, NaNs with an optional
    digit payload), or [digits [. [digits]]] / [. digits] with an optional
    exponent [e|E [sign] digits]. Non-ASCII decimal digits, which the module
    also reads as digits, are not modelled. *)
Definition decimal_of_string (s : ustr) : option py_decimal :=
  let s := filter (λ c, c ≠ 95) (py_strip s) in
  let '(neg, r) := parse_sign s in
  let l := py_lower r in
  if decide (l = u "inf" ∨ l = u "infinity") then Some (DInf neg)
  else if decide (take 3 l = u "nan" ∧ all_digits (drop 3 l) = true) then Some (DNaN false)
  else if decide (take 4 l = u "snan" ∧ all_digits (drop 4 l) = true) then Some (DNaN true)
  else
    let '(ip, r1) := span_digits r in
    let '(fp, r2) := match r1 with 46 :: r1' => span_digits r1' | _ => ([], r1) end in
    if decide (ip ++ fp = []) then None
    else
      let m := digits_value (ip ++ fp) in
      let k := Z.of_nat (length fp) in
      match r2 with
      | [] => Some (DFinite neg m (- k))
      | e :: r3 =>
          if (e =? 101) || (e =? 69) then
            let '(eneg, r4) := parse_sign r3 in
            let '(ed, r5) := span_digits r4 in
            if decide (ed = [] ∨ r5 ≠ []) then None
            else
              let x := digits_value ed in
              Some (DFinite neg m ((if eneg then - x else x) - k))
          else None
      end.

(** [d == d.to_integral_value()] for a finite [d]. *)
Definition dec_integral (m e : Z) : bool :=
  ((0 <=? e) || (m mod 10 ^ (- e) =? 0))%Z.

(** [int(d)] for a finite [d]. *)
Definition dec_int (neg : bool) (m e : Z) : Z :=
  let a := if (0 <=? e)%Z then (m * 10 ^ e)%Z else (m / 10 ^ (- e))%Z in
  if neg then (- a)%Z else a.

Fixpoint uint_digits (d : Decimal.uint) : ustr :=
  match d with
  | Decimal.Nil => []
  | Decimal.D0 r => 48 :: uint_digits r
  | Decimal.D1 r => 49 :: uint_digits r
  | Decimal.D2 r => 50 :: uint_digits r
  | Decimal.D3 r => 51 :: uint_digits r
  | Decimal.D4 r => 52 :: uint_digits r
  | Decimal.D5 r => 53 :: uint_digits r
  | Decimal.D6 r => 54 :: uint_digits r
  | Decimal.D7 r => 55 :: uint_digits r
  | Decimal.D8 r => 56 :: uint_digits r
  | Decimal.D9 r => 57 :: uint_digits r
  end.

(** [str(n)] for an [int]. *)
Definition str_int (v : Z) : ustr :=
  if (v <? 0)%Z then 45 :: uint_digits (N.to_uint (Z.to_N (- v)))
  else uint_digits (N.to_uint (Z.to_N v)).

(** Lines 126-128: [if code.endswith('.0'): code = code[:-2]]. *)
Definition strip_float_suffix (code : ustr) : ustr :=
  if ends_with (u ".0") code then take (length code - 2) code else code.

(** Lines 130-136. A finite integral value is printed as an [int]; for an
    infinity [int] raises [OverflowError], a quiet NaN is not equal to
    itself, and a signaling NaN raises [InvalidOperation] on comparison: in
    all three cases, as on a parse error, the code is kept. *)
Definition expand_scientific (code : ustr) : ustr :=
  if contains_char 69 (py_upper code) then
    match decimal_of_string code with
    | Some (DFinite neg m e) => if dec_integral m e then str_int (dec_int neg m e) else code
    | _ => code
    end
  else code.

(** [clean_code_format] on a string ([str(code)] is the identity there). *)
Definition clean_code_format (code : ustr) : ustr :=
  expand_scientific (strip_float_suffix (py_upper (py_strip code))).

(** The text ends in a whitespace character. *)
Definition ends_in_space (s : ustr) : bool :=
  match last s with Some c => py_isspace c | None => false end.

(* ------------------------------------------------------------------ *)
(** ** [clean_dataframe] and [aggregate_by_code] *)

(** A row of a cleaned table: columns [Código], [Producto], [Cantidad]. The
    quantity type is a parameter: [pyfloat] for the pipeline, [Q] for
    statements under exact arithmetic. *)
Record cleaned_row (A : Type) := CleanedRow { cl_code : ustr; cl_prod : ustr; cl_qty : A }.
Arguments CleanedRow {A} _ _ _.
Arguments cl_code {A} _.
Arguments cl_prod {A} _.
Arguments cl_qty {A} _.

(** [first_non_empty] inside [aggregate_by_code]: the first value [val] of
    the group with [val], [str(val).strip()] non-empty and
    [str(val).strip().upper() != 'NAN'] (the product column holds strings). *)
Fixpoint first_non_empty (series : list ustr) : ustr :=
  match series with
  | [] => []
  | val :: r =>
      if decide (val ≠ [] ∧ py_strip val ≠ [] ∧ py_upper (py_strip val) ≠ u "NAN")
      then val else first_non_empty r
  end.

(** A product value [first_non_empty] passes over: blank once stripped, or
    "NAN" in any case. *)
Definition blank_product (v : ustr) : Prop :=
  py_strip v = [] ∨ py_upper (py_strip v) = u "NAN".

Section Aggregate.
Context {A : Type} (add : A → A → A) (zero : A).

(** The rows of group [k], in their original order. *)
Definition group_of (rows : list (cleaned_row A)) (k : ustr) : list (cleaned_row A) :=
  filter (λ r, cl_code r = k) rows.

(** [df.groupby('Código', as_index=False).agg({'Producto': first_non_empty,
    'Cantidad': 'sum'})]: one row per distinct code, groups in ascending key
    order; the sum adds the group's quantities from left to right. *)
Definition aggregate_by_code (rows : list (cleaned_row A)) : list (cleaned_row A) :=
  map (λ k, let g := group_of rows k in
            CleanedRow k (first_non_empty (map cl_prod g)) (foldl add zero (map cl_qty g)))
      (sort_str (dedup (map cl_code rows))).
End Aggregate.

(** Float addition on exact values (rounding and overflow not modelled). *)
Definition pf_add (x y : pyfloat) : pyfloat :=
  match x, y with
  | PFin a, PFin b => PFin (a + b)
  | PInf a, PFin _ | PFin _, PInf a => PInf a
  | PInf a, PInf b => if eqb a b then PInf a else PNaN
  | _, _ => PNaN
  end.

(** A sheet as read with [dtype=str]: column labels ([str(col)]) and rows
    of cells, [None] being a missing cell (NaN). *)
Definition cell := option ustr.
Record frame := Frame { columns : list ustr; rows : list (list cell) }.

(** [str(v)] of a cell. *)
Definition cell_str (c : cell) : ustr := match c with Some s => s | None => u "nan" end.

(** [df[label]] is one column only when exactly one column has that label:
    a missing label raises [KeyError]; a repeated one (after
    [assign_positional_columns], which can name several columns
    'Producto') gives a DataFrame, on which the [.str] and per-value
    operations of [clean_dataframe] raise. [None] is that error. *)
Definition column_index (f : frame) (label : ustr) : option nat :=
  if decide (length (filter (λ c, c = label) (columns f)) = 1%nat)
  then fst <$> list_find (λ c, c = label) (columns f) else None.

Definition cell_at (r : list cell) (j : nat) : cell := default None (r !! j).

(** [.replace({'nan': '', 'NaN': '', 'NAN': ''})] on one value *)
Definition nan_to_empty (s : ustr) : ustr :=
  if decide (s = u "nan" ∨ s = u "NaN" ∨ s = u "NAN") then [] else s.

(** [clean_dataframe(df, codigo_col, producto_col, cantidad_col)]; [None] is
    the error of a label that is not exactly one column. The three source
    columns are read from the input frame: the new columns [Código],
    [Cantidad], [Producto] could only alias a later-read source column if a
    detected quantity or product column were labelled [Código] or
    [Cantidad], which no pattern of [CANTIDAD_PATTERNS] or
    [PRODUCTO_PATTERNS] matches. *)
Definition clean_dataframe (f : frame) (codigo_col : ustr) (producto_col : option ustr)
    (cantidad_col : ustr) : option (list (cleaned_row pyfloat)) :=
  match column_index f codigo_col, column_index f cantidad_col,
        match producto_col with
        | Some p => Some <$> column_index f p
        | None => Some None
        end with
  | Some ic, Some iq, Some ip =>
      let kept := filter (λ r, py_strip (py_lower (cell_str (cell_at r ic)))
                               ≠ py_strip (py_lower codigo_col)) (rows f) in
      let result :=
        map (λ r, CleanedRow (clean_code_format (cell_str (cell_at r ic)))
                    (match ip with
                     | Some j => nan_to_empty (py_strip (cell_str (cell_at r j)))
                     | None => []
                     end)
                    (clean_quantity (cell_at r iq))) kept in
      let result := filter (λ r, cl_code r ≠ []) result in
      Some (filter (λ r, py_upper (cl_code r) ≠ u "NAN") result)
  | _, _, _ => None
  end.

(* ------------------------------------------------------------------ *)
(** ** Column patterns and [detect_column] *)

(** The regular expressions of the pattern lists: [^], then atoms (a
    character, a class [[...]], [.], [\s] or an escaped character), each
    once, optional ([?]) or repeated ([*]), then [$]. *)
Inductive atom := Lit (c : uchar) | OneOf (cs : list uchar) | AnyChar | Space.
Inductive piece := One (a : atom) | Opt (a : atom) | Star (a : atom).

Fixpoint span_class (s : ustr) : ustr * ustr :=
  match s with
  | [] => ([], [])
  | 93 :: r => ([], r)
  | c :: r => let '(cs, rest) := span_class r in (c :: cs, rest)
  end.

(** The atoms after [^], up to the final [$]; [None] outside the subset. *)
Fixpoint parse_pieces (fuel : nat) (s : ustr) : option (list piece) :=
  match fuel with
  | O => None
  | S fuel =>
      match s with
      | [36] => Some []
      | [] => None
      | _ =>
          let next :=
            match s with
            | 92 :: 115 :: r => Some (Space, r)
            | 92 :: c :: r => Some (Lit c, r)
            | 46 :: r => Some (AnyChar, r)
            | 91 :: r => let '(cs, r') := span_class r in Some (OneOf cs, r')
            | c :: r => Some (Lit c, r)
            | [] => None
            end in
          match next with
          | None => None
          | Some (a, r) =>
              match r with
              | 63 :: r' => cons (Opt a) <$> parse_pieces fuel r'
              | 42 :: r' => cons (Star a) <$> parse_pieces fuel r'
              | _ => cons (One a) <$> parse_pieces fuel r
              end
          end
      end
  end.

Definition regex_of (p : ustr) : option (list piece) :=
  match p with 94 :: r => parse_pieces (length r) r | _ => None end.

(** One character against an atom under [re.IGNORECASE]: compared after
    lower-casing; [.] is any character but a newline; [\s] is whitespace. *)
Definition atom_matches (a : atom) (c : uchar) : bool :=
  match a with
  | Lit p => lower_char c =? lower_char p
  | OneOf cs => bool_decide (lower_char c ∈ map lower_char cs)
  | AnyChar => negb (c =? 10)
  | Space => py_isspace c
  end.

(** Whether the pieces match the whole of [s] ([$] also matches before a
    final newline); a backtracking matcher finds a match exactly when one
    exists. *)
Fixpoint match_pieces (ps : list piece) (s : ustr) : bool :=
  match ps with
  | [] => bool_decide (s = [] ∨ s = [10])
  | p :: ps' =>
      let once a s := match s with c :: s' => atom_matches a c && match_pieces ps' s' | [] => false end in
      match p with
      | One a => once a s
      | Opt a => once a s || match_pieces ps' s
      | Star a =>
          (fix star (s : ustr) : bool :=
             match_pieces ps' s ||
             match s with c :: s' => atom_matches a c && star s' | [] => false end) s
      end
  end.

(** [re.match(pattern, s, re.IGNORECASE)] is not [None]. *)
Definition re_match (pattern s : ustr) : bool :=
  match regex_of pattern with Some ps => match_pieces ps s | None => false end.

Definition CODIGO_PATTERNS : list ustr := map u
  ["^c[oó]digo.*$"; "^cod\.?.*$"; "^sku.*$"; "^id$"; "^codigo$";
   "^c[oó]d\.?\s*producto.*$"; "^item$"; "^referencia.*$"; "^ref\.?$";
   "^art[ií]culo.*$"; "^cod.*art.*$"; "^clave.*$"; "^num.*$";
   "^n[uú]mero.*$"; "^parte.*$"; "^c[oó]d.*$"; "^barcode.*$";
   "^upc$"; "^ean$"; "^plu$"]%string.

Definition PRODUCTO_PATTERNS : list ustr := map u
  ["^producto.*$"; "^descripci[oó]n.*$"; "^nombre.*$"; "^art[ií]culo.*$";
   "^item$"; "^detalle.*$"; "^material.*$"; "^desc\.?.*$";
   "^denominaci[oó]n.*$"; "^especificaci[oó]n.*$"; "^concepto.*$"]%string.

Definition CANTIDAD_PATTERNS : list ustr := map u
  ["^cant\.?\s*final.*$"; "^cantidad.*$"; "^cant\.?.*$"; "^qty.*$"; "^unidades.*$"; "^stock.*$";
   "^existencia.*$"; "^saldo.*$"; "^und\.?.*$"; "^pzs\.?.*$";
   "^total.*$"; "^unid.*$"; "^piezas.*$"; "^disponible.*$";
   "^inventario.*$"; "^disp.*$"; "^almac[eé]n.*$"; "^bodega.*$";
   "^f[ií]sico.*$"; "^conteo.*$"]%string.

(** The inner loop of [detect_column]: the first pattern of the list that
    matches, if any. *)
Fixpoint first_matching (patterns : list ustr) (col_clean : ustr) : option ustr :=
  match patterns with
  | [] => None
  | pattern :: r => if re_match pattern col_clean then Some pattern else first_matching r col_clean
  end.

(** [detect_column(df, patterns)] on the labels of [df] ([str(col)]). *)
Fixpoint detect_column (cols : list ustr) (patterns : list ustr) : option ustr :=
  match cols with
  | [] => None
  | col :: r =>
      let col_clean := py_strip (py_lower col) in
      match first_matching patterns col_clean with
      | Some _ => Some col
      | None => detect_column r patterns
      end
  end.

(* ------------------------------------------------------------------ *)
(** ** [read_excel_file] *)

(** A sheet as pandas reads it with [header=None, dtype=str]: rows of
    cells, [None] for an empty cell or a text pandas reads as NA. *)
Definition sheet := list (list cell).

Definition ncols (sh : sheet) : nat := foldr (λ r n, max (length r) n) 0%nat sh.

Definition column_cells (sh : sheet) (i : nat) : list cell := map (λ r, cell_at r i) sh.

Definition header_keywords : list ustr := map u
  ["codigo"; "código"; "cod"; "producto"; "descripcion"; "descripción";
   "cantidad"; "cant"; "stock"; "unidades"; "total"; "item"; "articulo";
   "artículo"; "material"; "referencia"; "nombre"; "detalle"]%string.

(** [t in s] for strings *)
Fixpoint str_contains (t s : ustr) : bool :=
  match s with
  | [] => bool_decide (t = [])
  | _ :: r => bool_decide (take (length t) s = t) || str_contains t r
  end.

(** [sum(1 for v in row_values for kw in header_keywords if kw in v.lower())]
    with [row_values = [str(v).lower().strip() for v in row]]. *)
Definition keyword_matches (row : list cell) : nat :=
  let row_values := map (λ v, py_strip (py_lower (cell_str v))) row in
  length (row_values ≫= λ v, filter (λ kw, str_contains kw (py_lower v) = true) header_keywords).

(** The loop over the rows of [header_sample]: the index of the first row
    with at least 2 matches. *)
Fixpoint find_header_row (i : nat) (rows : list (list cell)) : option nat :=
  match rows with
  | [] => None
  | row :: r => if (2 <=? keyword_matches row)%nat then Some i else find_header_row (S i) r
  end.

(** [header_sample] holds the first 30 rows ([nrows=30]). *)
Definition detect_header_row (sh : sheet) : option nat := find_header_row 0 (take 30 sh).

Definition is_ascii_space (c : uchar) : bool := (c =? 32) || ((9 <=? c) && (c <=? 13)).

Fixpoint skip_ascii_space (s : ustr) : ustr :=
  match s with
  | c :: r => if is_ascii_space c then skip_ascii_space r else s
  | [] => []
  end.

(** [to_double] of pandas' parser helpers ([xstrtod] with '.' as decimal
    point, 'e'/'E' for the exponent and no thousands separator, the whole
    text consumed): ASCII whitespace, an optional sign, digits with an
    optional fraction (at least one digit), an optional exponent of at most
    17 digits, ASCII whitespace. It fails when the decimal exponent (the
    written one minus the number of fraction digits) is outside
    [DBL_MIN_EXP, DBL_MAX_EXP] = [-1021, 1024], or when the value overflows
    a double (taken here as reaching 2^1024). *)
Definition xstrtod_ok (s : ustr) : bool :=
  let '(_, r) := parse_sign (skip_ascii_space s) in
  let '(ip, r1) := span_digits r in
  let '(fp, r2) := match r1 with 46 :: r1' => span_digits r1' | _ => ([], r1) end in
  if decide (ip ++ fp = []) then false
  else
    let m := digits_value (ip ++ fp) in
    let k := Z.of_nat (length fp) in
    let exp_rest :=
      match r2 with
      | e :: r3 =>
          if (e =? 101) || (e =? 69) then
            let '(eneg, r4) := parse_sign r3 in
            let '(ed, r5) := span_digits r4 in
            if decide (ed = [] ∨ 17 < length ed)%nat then None
            else Some ((if eneg then - digits_value ed else digits_value ed)%Z, r5)
          else Some (0%Z, r2)
      | [] => Some (0%Z, [])
      end in
    match exp_rest with
    | None => false
    | Some (x, rest) =>
        let e := (x - k)%Z in
        ((-1021 <=? e)%Z && (e <=? 1024)%Z &&
         negb (Qle_bool (inject_Z (2 ^ 1024)) (dec_value false m e)) &&
         forallb is_ascii_space rest)
    end.

(** [pd.to_numeric(v, errors='coerce')] is not NaN, for a string [v]: the
    empty string is NaN; otherwise [floatify] accepts what [to_double]
    accepts and the texts inf, infinity with an optional sign in any case. *)
Definition to_numeric_ok (v : ustr) : bool :=
  negb (bool_decide (v = [])) &&
  (xstrtod_ok v ||
   bool_decide (py_lower v ∈ map u ["inf"; "+inf"; "-inf"; "infinity"; "+infinity"; "-infinity"]%string)).

Definition columna (i : nat) : ustr := u "Columna_" ++ str_int (Z.of_nat i).

(** The loop of [assign_positional_columns] over the columns (their cells),
    with [codigo_assigned] and [cantidad_assigned]. [numeric_count /
    len(col_data) > 0.7] is compared exactly ([10 n > 7 len]): the double
    quotient is above the double 0.7 exactly then, for fewer than 10^8
    values; likewise the mean length against 15 and 10. *)
Fixpoint assign_positional (i : nat) (cols : list (list cell))
    (codigo_assigned cantidad_assigned : bool) : list ustr :=
  match cols with
  | [] => []
  | col :: rest =>
      let col_data := omap id col in
      if decide (col_data = []) then
        columna i :: assign_positional (S i) rest codigo_assigned cantidad_assigned
      else
        let n := length col_data in
        let numeric_count := length (filter (λ v, to_numeric_ok v = true) col_data) in
        let is_mostly_numeric := bool_decide (7 * n < 10 * numeric_count)%nat in
        let total_length := sum_list (map length col_data) in
        if negb codigo_assigned && is_mostly_numeric && bool_decide (total_length < 15 * n)%nat then
          u "Código" :: assign_positional (S i) rest true cantidad_assigned
        else if negb cantidad_assigned && is_mostly_numeric && codigo_assigned then
          u "Cantidad" :: assign_positional (S i) rest codigo_assigned true
        else if bool_decide (10 * n < total_length)%nat then
          u "Producto" :: assign_positional (S i) rest codigo_assigned cantidad_assigned
        else columna i :: assign_positional (S i) rest codigo_assigned cantidad_assigned
  end.

Definition assign_positional_columns (sh : sheet) : frame :=
  Frame (assign_positional 0 (map (column_cells sh) (seq 0 (ncols sh))) false false) sh.

(** The [while cur_count > 0] loop of pandas' [dedup_names]; it visits
    names already counted, each longer than the last, so it runs at most
    once per earlier name: [fuel] is the number of names. *)
Fixpoint mangle_loop (fuel : nat) (counts : gmap ustr nat) (col : ustr) (cur_count : nat)
    : gmap ustr nat * ustr * nat :=
  match fuel with
  | O => (counts, col, cur_count)
  | S fuel =>
      if (cur_count =? 0)%nat then (counts, col, cur_count)
      else
        let counts := <[col := S cur_count]> counts in
        let col := col ++ u "." ++ str_int (Z.of_nat cur_count) in
        mangle_loop fuel counts col (default 0%nat (counts !! col))
  end.

Fixpoint dedup_names_go (fuel : nat) (counts : gmap ustr nat) (names : list ustr) : list ustr :=
  match names with
  | [] => []
  | col :: r =>
      let '(counts, col, cur_count) := mangle_loop fuel counts col (default 0%nat (counts !! col)) in
      col :: dedup_names_go fuel (<[col := S cur_count]> counts) r
  end.

(** [dedup_names]: a repeated label "X" becomes "X.1", "X.2", ... *)
Definition dedup_names (names : list ustr) : list ustr := dedup_names_go (length names) ∅ names.

(** [pd.read_excel(..., header=h, dtype=str)]: the labels come from row [h]
    (an empty cell in column [k] gives "Unnamed: k"), the data are the rows
    below it. *)
Definition header_frame (sh : sheet) (h : nat) : frame :=
  let header := default [] (sh !! h) in
  let labels := map (λ k, match cell_at header k with
                          | Some s => s
                          | None => u "Unnamed: " ++ str_int (Z.of_nat k)
                          end) (seq 0 (ncols sh)) in
  Frame (dedup_names labels) (drop (S h) sh).

Definition read_excel_file (sh : sheet) : frame :=
  match detect_header_row sh with
  | Some header_row => header_frame sh header_row
  | None => assign_positional_columns sh
  end.

(** [sep.join(l)] *)
Fixpoint join_str (sep : ustr) (l : list ustr) : ustr :=
  match l with
  | [] => []
  | [x] => x
  | x :: r => x ++ sep ++ join_str sep r
  end.

(** [available_cols_str] of [process_excel_file]. *)
Definition available_cols_str (cols : list ustr) : ustr :=
  let available_cols := map py_strip cols in
  let s := join_str (u ", ") (take 10 available_cols) in
  if (10 <? length available_cols)%nat
  then s ++ u "... (+" ++ str_int (Z.of_nat (length available_cols - 10)) ++ u " más)"
  else s.

Inductive py_error :=
  | ValueError (msg : ustr)
  (** [clean_dataframe] on a column label that is not exactly one column *)
  | ColumnError.

Record detected := Detected { det_codigo : ustr; det_producto : ustr; det_cantidad : ustr }.

(** [process_excel_file]. A detected label is never empty (its stripped,
    lower-cased form matches a pattern), so [if not codigo_col] and
    [producto_col or ...] only test for [None]. *)
Definition process_excel_file (sh : sheet)
    : py_error + (list (cleaned_row pyfloat) * detected) :=
  let df := read_excel_file sh in
  let available := available_cols_str (columns df) in
  let codigo_col := detect_column (columns df) CODIGO_PATTERNS in
  let producto_col := detect_column (columns df) PRODUCTO_PATTERNS in
  let cantidad_col := detect_column (columns df) CANTIDAD_PATTERNS in
  match codigo_col with
  | None => inl (ValueError (u "No se encontró la columna de Código. Columnas disponibles: " ++ available))
  | Some c =>
      match cantidad_col with
      | None => inl (ValueError (u "No se encontró la columna de Cantidad. Columnas disponibles: " ++ available))
      | Some q =>
          match clean_dataframe df c producto_col q with
          | Some cleaned_df =>
              inr (aggregate_by_code pf_add (PFin 0) cleaned_df,
                   Detected c (default (u "(no detectado)") producto_col) q)
          | None => inl ColumnError
          end
      end
  end.

(* ------------------------------------------------------------------ *)
(** ** [create_output_excel] *)

(** A cell value written to the output workbook: a string, a float (its
    exact value) or an [int]. *)
Inductive xval := XStr (s : ustr) | XNum (q : Q) | XInt (n : nat).

(** A worksheet: its title and its rows of cell values, from row 1. *)
Definition worksheet := (ustr * list (list xval))%type.

(** The rows of [create_summary_data], in order. *)
Definition summary_rows (d : summary) : list (list xval) :=
  [[XStr (u "RESUMEN DE COMPARACIÓN"); XStr []];
   [XStr []; XStr []];
   [XStr (u "Estadísticas Archivo 1"); XStr []];
   [XStr (u "Total de registros"); XInt (s_records1 d)];
   [XStr (u "Suma de cantidades"); XNum (s_qty_sum1 d)];
   [XStr []; XStr []];
   [XStr (u "Estadísticas Archivo 2"); XStr []];
   [XStr (u "Total de registros"); XInt (s_records2 d)];
   [XStr (u "Suma de cantidades"); XNum (s_qty_sum2 d)];
   [XStr []; XStr []];
   [XStr (u "Resultados de Comparación"); XStr []];
   [XStr (u "Total registros comparados"); XInt (s_total_compared d)];
   [XStr (u "Registros con diferencias"); XInt (s_with_differences d)];
   [XStr (u "Solo en Archivo 1"); XInt (s_only_in_1 d)];
   [XStr (u "Solo en Archivo 2"); XInt (s_only_in_2 d)];
   [XStr []; XStr []];
   [XStr (u "Diferencia total de cantidades"); XNum (s_total_difference d)]].

(** [dataframe_to_rows(df, index=False, header=True)] on the views of
    [compare_dataframes]: the column labels, then one row per record. *)
Definition cmp_frame_rows (l : list cmp_row) : list (list xval) :=
  map XStr [u "Código"; u "Producto"; u "Cantidad_Archivo1"; u "Cantidad_Archivo2"; u "Diferencia"]
  :: map (λ r, [XStr (r_code r); XStr (r_prod r); XNum (r_qty1 r); XNum (r_qty2 r); XNum (r_diff r)]) l.

Definition canon_frame_rows (l : list canon_row) : list (list xval) :=
  map XStr [u "Código"; u "Producto"; u "Cantidad"]
  :: map (λ r, [XStr (c_code r); XStr (c_prod r); XNum (c_qty r)]) l.

(** [create_output_excel]: the five sheets and the values written to them.
    [apply_styles] only sets fonts, fills, borders, alignment and column
    widths, and [wb.save] serialises the workbook; neither changes a value
    and neither is modelled. *)
Definition create_output_excel (df1 df2 : list canon_row) (results : comparison)
    : list worksheet :=
  [(u "Resumen", summary_rows (create_summary_data df1 df2 results));
   (u "Comparación Completa", cmp_frame_rows (comparison_complete results));
   (u "Solo Diferencias",
     if (0 <? length (only_differences results))%nat
     then cmp_frame_rows (only_differences results)
     else [[XStr (u "No hay diferencias entre los archivos")]]);
   (u "No Coinciden Archivo1",
     if (0 <? length (not_in_file2 results))%nat
     then canon_frame_rows (not_in_file2 results)
     else [[XStr (u "Todos los códigos del Archivo 1 están en el Archivo 2")]]);
   (u "No Coinciden Archivo2",
     if (0 <? length (not_in_file1 results))%nat
     then canon_frame_rows (not_in_file1 results)
     else [[XStr (u "Todos los códigos del Archivo 2 están en el Archivo 1")]])].

(* ------------------------------------------------------------------ *)
(** ** The endpoints of [main.py] that call the processor *)

(** [os.path.splitext(p)] of [posixpath] (separator '/', extension
    separator '.'): when the last dot follows the last '/', the loop over
    the characters of the file name before that dot splits at the first
    one that is not a dot; a name made of dots only, or no dot after the
    last '/', gives an empty extension. *)
Definition splitext (p : ustr) : ustr * ustr :=
  let sepIndex := rfind 47 p in
  let dotIndex := rfind 46 p in
  if (sepIndex <? dotIndex)%Z then
    let filenameIndex := Z.to_nat (sepIndex + 1) in
    let before_dot := take (Z.to_nat dotIndex - filenameIndex) (drop filenameIndex p) in
    if existsb (λ c, negb (c =? 46)) before_dot
    then (take (Z.to_nat dotIndex) p, drop (Z.to_nat dotIndex) p)
    else (p, [])
  else (p, []).

(** The file-type check of [preview_file] and [compare_files]:
    [os.path.splitext(filename)[1].lower() in ['.xls', '.xlsx']]. *)
Definition valid_extension (filename : ustr) : bool :=
  bool_decide (py_lower (splitext filename).2 ∈ [u ".xls"; u ".xlsx"]).

(** The response of [preview_file]. *)
Record preview := Preview {
  pv_rows : nat;
  pv_columns : list ustr;
  pv_codigo : option ustr;
  pv_producto : option ustr;
  pv_cantidad : option ustr;
  pv_valid : bool
}.

(** [col if col else None] *)
Definition truthy (col : option ustr) : option ustr :=
  match col with Some [] => None | _ => col end.

(** [preview_file] once the file type and size are accepted: the rows and
    the first 15 labels of the sheet as read, the detected columns, and
    [valid = codigo_col is not None and cantidad_col is not None]. *)
Definition preview_file (sh : sheet) : preview :=
  let df := read_excel_file sh in
  let codigo_col := detect_column (columns df) CODIGO_PATTERNS in
  let producto_col := detect_column (columns df) PRODUCTO_PATTERNS in
  let cantidad_col := detect_column (columns df) CANTIDAD_PATTERNS in
  let all_columns := columns df in
  Preview (length (rows df)) (take 15 all_columns)
    (truthy codigo_col) (truthy producto_col) (truthy cantidad_col)
    (bool_decide (is_Some codigo_col) && bool_decide (is_Some cantidad_col)).

(* ------------------------------------------------------------------ *)
(** ** Sample tables (the end-to-end scenario of the spec, extended) *)

Definition ex_table1 : list canon_row :=
  [CanonRow (u "100") (u "Tornillo") 1002; CanonRow (u "7") (u "") 3].
Definition ex_table2 : list canon_row :=
  [CanonRow (u "100") (u "") 500; CanonRow (u "2") (u "Tuerca") 4].

(** A sheet with a repeated header row, a float-formatted code, a missing
    code and a missing product. *)
Definition ex_frame : frame :=
  Frame [u "Código"; u "Producto"; u "Cantidad"]
    [[Some (u "806.0"); Some (u "Tornillo"); Some (u "3")];
     [Some (u "código "); Some (u "Producto"); Some (u "Cantidad")];
     [None; Some (u "Tuerca"); Some (u "1")];
     [Some (u "806"); None; Some (u "7")];
     [Some (u " 12 "); Some (u "nan"); Some (u "1.234,5")]].

(* ================================================================== *)
(** * Proofs *)

Close Scope N_scope.

(** ** Python string order *)

Lemma lex_leb_total (a b : ustr) : lex_leb a b = true ∨ lex_leb b a = true.
Proof.
  revert b; induction a as [|x a IH]; intros [|y b]; simpl; auto.
  destruct (x <? y)%N eqn:E1; destruct (y <? x)%N eqn:E2; auto.
Qed.

Lemma lex_leb_trans (a b c : ustr) :
  lex_leb a b = true → lex_leb b c = true → lex_leb a c = true.
Proof.
  revert b c; induction a as [|x a IH]; intros [|y b] [|z c]; simpl; auto; try discriminate.
  intros H1 H2.
  destruct (x <? y)%N eqn:Exy; destruct (y <? x)%N eqn:Eyx;
  destruct (y <? z)%N eqn:Eyz; destruct (z <? y)%N eqn:Ezy;
  destruct (x <? z)%N eqn:Exz; destruct (z <? x)%N eqn:Ezx;
  rewrite ?N.ltb_lt, ?N.ltb_ge in *; try discriminate; try lia; auto.
  assert (x = y) by lia; assert (y = z) by lia; subst; eauto.
Qed.

Lemma lex_leb_antisym (a b : ustr) :
  lex_leb a b = true → lex_leb b a = true → a = b.
Proof.
  revert b; induction a as [|x a IH]; intros [|y b]; simpl; auto; try discriminate.
  intros H1 H2.
  destruct (x <? y)%N eqn:Exy; destruct (y <? x)%N eqn:Eyx;
  rewrite ?N.ltb_lt, ?N.ltb_ge in *; try discriminate; try lia.
  assert (x = y) by lia; subst. f_equal; auto.
Qed.

#[global] Instance lex_le_total : Total lex_le.
Proof. intros a b. apply lex_leb_total. Qed.
#[global] Instance lex_le_trans : Transitive lex_le.
Proof. intros a b c. apply lex_leb_trans. Qed.
#[global] Instance lex_le_antisym : AntiSymm (=) lex_le.
Proof. intros a b. apply lex_leb_antisym. Qed.

Lemma sort_str_Permutation (l : list ustr) : sort_str l ≡ₚ l.
Proof. apply merge_sort_Permutation. Qed.

Lemma sort_str_Sorted (l : list ustr) : Sorted lex_le (sort_str l).
Proof. apply Sorted_merge_sort, _. Qed.

(** Sorting forgets the order of its input. *)
Lemma sort_str_perm_eq (l1 l2 : list ustr) : l1 ≡ₚ l2 → sort_str l1 = sort_str l2.
Proof.
  intros Hp. apply (Sorted_unique lex_le); [apply sort_str_Sorted.. |].
  by rewrite !sort_str_Permutation.
Qed.

Lemma elem_of_dedup (x : ustr) (l : list ustr) : x ∈ dedup l ↔ x ∈ l.
Proof.
  induction l as [|y l IH]; simpl; [done |].
  rewrite !elem_of_cons, list_elem_of_filter, IH.
  destruct (decide (x = y)); naive_solver.
Qed.

Lemma NoDup_dedup (l : list ustr) : NoDup (dedup l).
Proof.
  induction l as [|y l IH]; simpl; constructor.
  - rewrite list_elem_of_filter. naive_solver.
  - by apply NoDup_filter.
Qed.

Lemma dedup_app_comm (l1 l2 : list ustr) : dedup (l1 ++ l2) ≡ₚ dedup (l2 ++ l1).
Proof.
  apply NoDup_Permutation; try apply NoDup_dedup.
  intros x. rewrite !elem_of_dedup, !elem_of_app. tauto.
Qed.

Definition merge_keys (df1 df2 : list canon_row) : list ustr :=
  sort_str (dedup (codes df1 ++ codes df2)).

Lemma merge_keys_comm (df1 df2 : list canon_row) : merge_keys df2 df1 = merge_keys df1 df2.
Proof. apply sort_str_perm_eq, dedup_app_comm. Qed.

Lemma NoDup_merge_keys (df1 df2 : list canon_row) : NoDup (merge_keys df1 df2).
Proof. unfold merge_keys. rewrite sort_str_Permutation. apply NoDup_dedup. Qed.

Lemma elem_of_merge_keys (k : ustr) (df1 df2 : list canon_row) :
  k ∈ merge_keys df1 df2 ↔ k ∈ codes df1 ∨ k ∈ codes df2.
Proof. unfold merge_keys. by rewrite sort_str_Permutation, elem_of_dedup, elem_of_app. Qed.

(** ** Outer merge of tables with unique codes *)

Definition find_code (k : ustr) (t : list canon_row) : option canon_row :=
  head (with_code k t).

Lemma with_code_not_in (k : ustr) (t : list canon_row) :
  k ∉ codes t → with_code k t = [].
Proof.
  induction t as [|r t IH]; intros Hk; [done |].
  unfold with_code; rewrite filter_cons_False.
  - apply IH. intros ?. apply Hk. simpl. by right.
  - intros <-. apply Hk. simpl. by left.
Qed.

Lemma with_code_in (k : ustr) (t : list canon_row) :
  NoDup (codes t) → k ∈ codes t → ∃ a, a ∈ t ∧ c_code a = k ∧ with_code k t = [a].
Proof.
  induction t as [|r t IH]; simpl; intros Hnd Hk; [by apply not_elem_of_nil in Hk |].
  apply NoDup_cons in Hnd as [Hr Hnd].
  unfold with_code; rewrite filter_cons.
  apply elem_of_cons in Hk as [-> | Hk].
  - exists r. rewrite decide_True by done. split; [left | split; [done |]].
    f_equal. by apply with_code_not_in.
  - destruct (decide (c_code r = k)) as [<- | Hne]; [done |].
    destruct (IH Hnd Hk) as (a & Ha & Hc & Heq). exists a. repeat split; auto.
    by right.
Qed.

Lemma find_code_in (k : ustr) (t : list canon_row) :
  NoDup (codes t) → k ∈ codes t →
  ∃ a, a ∈ t ∧ c_code a = k ∧ with_code k t = [a] ∧ find_code k t = Some a.
Proof.
  intros Hnd Hk. destruct (with_code_in k t Hnd Hk) as (a & ? & ? & Heq).
  exists a. unfold find_code. rewrite Heq. auto.
Qed.

Lemma find_code_not_in (k : ustr) (t : list canon_row) :
  k ∉ codes t → find_code k t = None.
Proof. intros Hk. unfold find_code. by rewrite with_code_not_in. Qed.

(** The merged row of a key when codes are unique on both sides. *)
Definition row_for (df1 df2 : list canon_row) (k : ustr) : merged_row :=
  match find_code k df1, find_code k df2 with
  | Some a, Some b => merge_both a b
  | Some a, None => merge_left a
  | None, Some b => merge_right b
  | None, None => MergedRow k None None None None Both
  end.

Section UniqueCodes.
Variables df1 df2 : list canon_row.
Hypothesis Hnd1 : NoDup (codes df1).
Hypothesis Hnd2 : NoDup (codes df2).

Lemma merge_key_unique (k : ustr) :
  k ∈ codes df1 ∨ k ∈ codes df2 → merge_key df1 df2 k = [row_for df1 df2 k].
Proof.
  intros Hk. unfold merge_key, row_for.
  destruct (decide (k ∈ codes df1)) as [H1 | H1];
  destruct (decide (k ∈ codes df2)) as [H2 | H2].
  - destruct (find_code_in k df1 Hnd1 H1) as (a & _ & _ & -> & ->).
    destruct (find_code_in k df2 Hnd2 H2) as (b & _ & _ & -> & ->). done.
  - destruct (find_code_in k df1 Hnd1 H1) as (a & _ & _ & -> & ->).
    rewrite (with_code_not_in k df2 H2), (find_code_not_in k df2 H2). done.
  - destruct (find_code_in k df2 Hnd2 H2) as (b & _ & _ & -> & ->).
    rewrite (with_code_not_in k df1 H1), (find_code_not_in k df1 H1). done.
  - tauto.
Qed.

Lemma outer_merge_unique :
  outer_merge df1 df2 = map (row_for df1 df2) (merge_keys df1 df2).
Proof.
  unfold outer_merge. fold (merge_keys df1 df2).
  assert (Hall : ∀ k, k ∈ merge_keys df1 df2 → k ∈ codes df1 ∨ k ∈ codes df2)
    by (intros k; apply elem_of_merge_keys).
  induction (merge_keys df1 df2) as [|k K IH]; simpl; [done |].
  rewrite merge_key_unique by (apply Hall; left).
  simpl. f_equal. apply IH. intros k' Hk'. apply Hall. by right.
Qed.

Definition ind_of (k : ustr) : merge_ind :=
  if decide (k ∈ codes df1) then (if decide (k ∈ codes df2) then Both else LeftOnly)
  else RightOnly.

Lemma row_for_ind (k : ustr) :
  k ∈ codes df1 ∨ k ∈ codes df2 → m_ind (row_for df1 df2 k) = ind_of k.
Proof.
  intros Hk. unfold row_for, ind_of.
  destruct (decide (k ∈ codes df1)) as [H1 | H1];
  destruct (decide (k ∈ codes df2)) as [H2 | H2].
  - destruct (find_code_in k df1 Hnd1 H1) as (a & _ & _ & _ & ->).
    destruct (find_code_in k df2 Hnd2 H2) as (b & _ & _ & _ & ->). done.
  - destruct (find_code_in k df1 Hnd1 H1) as (a & _ & _ & _ & ->).
    by rewrite (find_code_not_in k df2 H2).
  - destruct (find_code_in k df2 Hnd2 H2) as (b & _ & _ & _ & ->).
    by rewrite (find_code_not_in k df1 H1).
  - tauto.
Qed.
End UniqueCodes.

Lemma length_filter_fmap {A B} (f : A → B) (P : B → Prop) `{∀ x, Decision (P x)}
    (l : list A) :
  length (filter P (map f l)) = length (filter (λ x, P (f x)) l).
Proof.
  induction l as [|x l IH]; simpl; [done |].
  rewrite !filter_cons. case_decide; simpl; lia.
Qed.

Lemma filter_ext_in {A} (P1 P2 : A → Prop) `{∀ x, Decision (P1 x), ∀ x, Decision (P2 x)}
    (l : list A) :
  (∀ x, x ∈ l → P1 x ↔ P2 x) → filter P1 l = filter P2 l.
Proof.
  induction l as [|x l IH]; intros Hiff; [done |].
  rewrite !filter_cons.
  assert (Hx : P1 x ↔ P2 x) by (apply Hiff; left).
  rewrite IH by (intros y Hy; apply Hiff; by right).
  destruct (decide (P1 x)), (decide (P2 x)); naive_solver.
Qed.

Lemma length_ind_partition {A} (f : A → merge_ind) (l : list A) :
  length (filter (λ x, f x = LeftOnly) l) + length (filter (λ x, f x = RightOnly) l)
  + length (filter (λ x, f x = Both) l) = length l.
Proof.
  induction l as [|x l IH]; simpl; [done |].
  rewrite !filter_cons. destruct (f x); simpl; repeat case_decide; simplify_eq; simpl; lia.
Qed.

Lemma list_to_set_merge_keys (df1 df2 : list canon_row) :
  (list_to_set (merge_keys df1 df2) : gset ustr)
  = list_to_set (codes df1) ∪ list_to_set (codes df2).
Proof.
  apply set_eq. intros x.
  rewrite elem_of_union, !elem_of_list_to_set. apply elem_of_merge_keys.
Qed.

Lemma ind_of_Both (df1 df2 : list canon_row) (k : ustr) :
  ind_of df1 df2 k = Both ↔ k ∈ codes df1 ∧ k ∈ codes df2.
Proof. unfold ind_of. repeat case_decide; naive_solver. Qed.

(** C1: for tables with unique codes, [comparison_complete] has one row per
    code of the union of the code sets, and the rows of [not_in_file2], of
    [not_in_file1] and the codes of the intersection add up to it. *)
Theorem compare_dataframes_row_counts (df1 df2 : list canon_row) :
  NoDup (codes df1) → NoDup (codes df2) →
  let res := compare_dataframes df1 df2 in
  let s1 : gset ustr := list_to_set (codes df1) in
  let s2 : gset ustr := list_to_set (codes df2) in
  length (comparison_complete res) = size (s1 ∪ s2) ∧
  length (not_in_file2 res) + length (not_in_file1 res) + size (s1 ∩ s2)
  = length (comparison_complete res).
Proof.
  intros Hnd1 Hnd2 res s1 s2. subst res; simpl.
  rewrite (outer_merge_unique df1 df2 Hnd1 Hnd2).
  set (K := merge_keys df1 df2).
  assert (HK : ∀ k, k ∈ K → k ∈ codes df1 ∨ k ∈ codes df2)
    by (intros k; apply elem_of_merge_keys).
  rewrite !length_map.
  split.
  - subst s1 s2. rewrite <- list_to_set_merge_keys. fold K.
    rewrite size_list_to_set; [done | apply NoDup_merge_keys].
  - rewrite !length_filter_fmap.
    rewrite (filter_ext_in (λ x, m_ind (row_for df1 df2 x) = LeftOnly)
                           (λ x, ind_of df1 df2 x = LeftOnly))
      by (intros k Hk; by rewrite row_for_ind by auto).
    rewrite (filter_ext_in (λ x, m_ind (row_for df1 df2 x) = RightOnly)
                           (λ x, ind_of df1 df2 x = RightOnly))
      by (intros k Hk; by rewrite row_for_ind by auto).
    assert (Hboth : size (s1 ∩ s2) = length (filter (λ x, ind_of df1 df2 x = Both) K)).
    { rewrite <- (size_list_to_set (C := gset ustr))
        by (apply NoDup_filter, NoDup_merge_keys).
      f_equal. subst s1 s2. apply set_eq. intros x.
      rewrite elem_of_intersection, !elem_of_list_to_set, list_elem_of_filter, ind_of_Both.
      split; [| tauto]. intros [H1 H2]. split; [done |]. apply elem_of_merge_keys. by left. }
    rewrite Hboth. apply length_ind_partition.
Qed.

(** ** Swapping the inputs *)

Lemma find_code_Some (k : ustr) (t : list canon_row) (a : canon_row) :
  find_code k t = Some a → c_code a = k.
Proof.
  unfold find_code, with_code. intros Hh.
  assert (Ha : a ∈ filter (λ r, c_code r = k) t).
  { destruct (filter _ t); simplify_eq/=. by left. }
  by apply list_elem_of_filter in Ha as [? _].
Qed.

Definition only_left_view (ms : list merged_row) : list canon_row :=
  map (λ m, CanonRow (m_code m) (merged_product m) (default 0%Q (m_qty1 m)))
      (filter (λ m, m_ind m = LeftOnly) ms).
Definition only_right_view (ms : list merged_row) : list canon_row :=
  map (λ m, CanonRow (m_code m) (merged_product m) (default 0%Q (m_qty2 m)))
      (filter (λ m, m_ind m = RightOnly) ms).

Lemma filter_ind_left_only (j : merge_ind) (l : list canon_row) :
  filter (λ m, m_ind m = j) (map merge_left l)
  = if decide (LeftOnly = j) then map merge_left l else [].
Proof.
  induction l as [|x l IH]; [by destruct (decide (LeftOnly = j)) |].
  simpl. rewrite filter_cons, IH. simpl. by destruct (decide (LeftOnly = j)).
Qed.

Lemma filter_ind_right_only (j : merge_ind) (l : list canon_row) :
  filter (λ m, m_ind m = j) (map merge_right l)
  = if decide (RightOnly = j) then map merge_right l else [].
Proof.
  induction l as [|x l IH]; [by destruct (decide (RightOnly = j)) |].
  simpl. rewrite filter_cons, IH. simpl. by destruct (decide (RightOnly = j)).
Qed.

Lemma filter_ind_both (j : merge_ind) (l1 l2 : list canon_row) :
  Both ≠ j → filter (λ m, m_ind m = j) (l1 ≫= (λ a, map (merge_both a) l2)) = [].
Proof.
  intros HP. induction l1 as [|x l1 IH]; [done |].
  rewrite bind_cons, filter_app, IH, app_nil_r.
  clear IH. induction l2 as [|y l2 IH2]; [done |].
  simpl. rewrite filter_cons_False by done. exact IH2.
Qed.

Lemma merged_product_left (a : canon_row) :
  merged_product (merge_left a) = py_strip (c_prod a).
Proof.
  unfold merged_product; simpl.
  destruct (decide (c_prod a = [])) as [E | E]; simpl; [by rewrite E | done].
Qed.

Lemma merged_product_right (b : canon_row) :
  merged_product (merge_right b) = py_strip (c_prod b).
Proof. done. Qed.

(** Per key, the rows only on the left of [merge df2 df1] are the rows only on
    the right of [merge df1 df2]. *)
Lemma only_views_key (df1 df2 : list canon_row) (k : ustr) :
  only_left_view (merge_key df2 df1 k) = only_right_view (merge_key df1 df2 k).
Proof.
  unfold only_left_view, only_right_view, merge_key.
  destruct (with_code k df2) as [|b bs] eqn:E2, (with_code k df1) as [|a as_] eqn:E1.
  - done.
  - rewrite (filter_ind_right_only LeftOnly).
    rewrite (filter_ind_left_only RightOnly). done.
  - rewrite (filter_ind_left_only LeftOnly).
    rewrite (filter_ind_right_only RightOnly).
    rewrite !decide_True by done. rewrite !map_map.
    apply map_ext. intros x. simpl. by rewrite merged_product_left, merged_product_right.
  - rewrite (filter_ind_both LeftOnly) by done.
    rewrite (filter_ind_both RightOnly) by done. done.
Qed.

Lemma only_views_keys (df1 df2 : list canon_row) (K : list ustr) :
  only_left_view (K ≫= merge_key df2 df1) = only_right_view (K ≫= merge_key df1 df2).
Proof.
  induction K as [|k K IH]; [done |]. rewrite !bind_cons.
  unfold only_left_view, only_right_view in *.
  rewrite !filter_app, !map_app, IH. f_equal. apply only_views_key.
Qed.

Lemma only_views_swap (df1 df2 : list canon_row) :
  not_in_file2 (compare_dataframes df2 df1) = not_in_file1 (compare_dataframes df1 df2).
Proof.
  simpl. fold (only_left_view (outer_merge df2 df1)).
  fold (only_right_view (outer_merge df1 df2)).
  unfold outer_merge. fold (merge_keys df2 df1). fold (merge_keys df1 df2).
  rewrite merge_keys_comm. apply only_views_keys.
Qed.

Lemma row_for_swap (df1 df2 : list canon_row) (k : ustr) :
  let x := cmp_of_merged (row_for df2 df1 k) in
  let y := cmp_of_merged (row_for df1 df2 k) in
  r_code x = r_code y ∧ r_qty1 x = r_qty2 y ∧ r_qty2 x = r_qty1 y ∧
  (r_diff x == - r_diff y)%Q.
Proof.
  unfold row_for.
  destruct (find_code k df1) as [a|] eqn:E1, (find_code k df2) as [b|] eqn:E2;
  simpl; repeat split; try ring;
  repeat match goal with H : find_code _ _ = Some _ |- _ => apply find_code_Some in H end;
  congruence.
Qed.

(** C4: swapping the inputs negates each difference of
    [comparison_complete], code by code, and exchanges [not_in_file2] and
    [not_in_file1] (same codes, products and quantities). *)
Theorem compare_dataframes_swap (df1 df2 : list canon_row) :
  NoDup (codes df1) → NoDup (codes df2) →
  let r12 := compare_dataframes df1 df2 in
  let r21 := compare_dataframes df2 df1 in
  Forall2 (λ x y, r_code x = r_code y ∧ r_qty1 x = r_qty2 y ∧ r_qty2 x = r_qty1 y ∧
                  (r_diff x == - r_diff y)%Q)
          (comparison_complete r21) (comparison_complete r12) ∧
  not_in_file2 r21 = not_in_file1 r12 ∧
  not_in_file1 r21 = not_in_file2 r12.
Proof.
  intros Hnd1 Hnd2 r12 r21. split; [| split].
  - subst r12 r21; simpl.
    rewrite (outer_merge_unique df2 df1 Hnd2 Hnd1), (outer_merge_unique df1 df2 Hnd1 Hnd2).
    rewrite merge_keys_comm.
    induction (merge_keys df1 df2) as [|k K IH]; simpl; constructor; [| exact IH].
    apply row_for_swap.
  - apply only_views_swap.
  - symmetry. apply only_views_swap.
Qed.

(** ** Sum of the differences *)

Lemma qsum_app (l1 l2 : list Q) : (qsum (l1 ++ l2) == qsum l1 + qsum l2)%Q.
Proof.
  induction l1 as [|x l1 IH]; simpl; [ring |]. unfold qsum in *; simpl.
  rewrite IH. ring.
Qed.

Lemma qsum_Permutation (l1 l2 : list Q) : l1 ≡ₚ l2 → (qsum l1 == qsum l2)%Q.
Proof.
  induction 1 as [|x l1 l2 _ IH|x y l|l1 l2 l3 _ IH1 _ IH2]; unfold qsum in *; simpl.
  - reflexivity.
  - by rewrite IH.
  - ring.
  - by rewrite IH1, IH2.
Qed.

Definition qty_of (t : list canon_row) (k : ustr) : Q :=
  match find_code k t with Some a => c_qty a | None => 0%Q end.

Lemma row_for_qty (df1 df2 : list canon_row) (k : ustr) :
  r_diff (cmp_of_merged (row_for df1 df2 k)) = (qty_of df1 k - qty_of df2 k)%Q.
Proof.
  unfold row_for, qty_of.
  destruct (find_code k df1), (find_code k df2); reflexivity.
Qed.

Lemma qsum_minus {A} (f g : A → Q) (l : list A) :
  (qsum (map (λ x, f x - g x) l) == qsum (map f l) - qsum (map g l))%Q.
Proof.
  induction l as [|x l IH]; unfold qsum in *; simpl; [ring |]. rewrite IH. ring.
Qed.

Lemma qsum_qty_of_absent (t : list canon_row) (l : list ustr) :
  (∀ k, k ∈ l → k ∉ codes t) → (qsum (map (qty_of t) l) == 0)%Q.
Proof.
  induction l as [|k l IH]; intros Hl; [reflexivity |].
  unfold qsum in *; simpl. unfold qty_of at 1.
  rewrite find_code_not_in by (apply Hl; left).
  rewrite IH; [ring |]. intros k' Hk'. apply Hl. by right.
Qed.

Lemma qty_of_own (t : list canon_row) (a : canon_row) :
  NoDup (codes t) → a ∈ t → qty_of t (c_code a) = c_qty a.
Proof.
  intros Hnd Ha. unfold qty_of.
  assert (Hk : c_code a ∈ codes t) by (by apply list_elem_of_fmap_2).
  destruct (find_code_in (c_code a) t Hnd Hk) as (a' & _ & _ & Hw & ->).
  assert (Hin : a ∈ with_code (c_code a) t) by (by apply list_elem_of_filter).
  rewrite Hw in Hin. apply list_elem_of_singleton in Hin. by subst.
Qed.

Lemma qsum_qty_of (t : list canon_row) (K : list ustr) :
  NoDup (codes t) → NoDup K → (∀ k, k ∈ codes t → k ∈ K) →
  (qsum (map (qty_of t) K) == qsum (map c_qty t))%Q.
Proof.
  intros Hnd HK Hsub.
  assert (Hp : K ≡ₚ codes t ++ filter (λ k, k ∉ codes t) K).
  { apply NoDup_Permutation; [done | |].
    - apply NoDup_app. split; [done | split; [| by apply NoDup_filter]].
      intros x Hx Hx'. apply list_elem_of_filter in Hx'. tauto.
    - intros x. rewrite elem_of_app, list_elem_of_filter.
      destruct (decide (x ∈ codes t)); naive_solver. }
  rewrite (qsum_Permutation _ _ (Permutation_map (qty_of t) Hp)).
  rewrite map_app, qsum_app.
  assert (Hz : (qsum (map (qty_of t) (filter (λ k, k ∉ codes t) K)) == 0)%Q).
  { apply qsum_qty_of_absent. intros k Hk. by apply list_elem_of_filter in Hk as [? _]. }
  rewrite Hz.
  assert (Hown : map (qty_of t) (codes t) = map c_qty t).
  { unfold codes. rewrite map_map. apply list_fmap_ext. intros i a Ha.
    apply qty_of_own; [done |]. by eapply list_elem_of_lookup_2. }
  rewrite Hown. ring.
Qed.

(** C10: under exact arithmetic, the total difference reported by
    [create_summary_data] (the sum of [Diferencia] over
    [comparison_complete]) is the sum of the quantities of the first table
    minus the sum of the quantities of the second. *)
Theorem total_difference_identity (df1 df2 : list canon_row) :
  NoDup (codes df1) → NoDup (codes df2) →
  let sm := create_summary_data df1 df2 (compare_dataframes df1 df2) in
  (s_total_difference sm == s_qty_sum1 sm - s_qty_sum2 sm)%Q.
Proof.
  intros Hnd1 Hnd2 sm. subst sm; simpl.
  rewrite (outer_merge_unique df1 df2 Hnd1 Hnd2), !map_map.
  rewrite (map_ext _ (λ k, qty_of df1 k - qty_of df2 k)%Q) by (intros k; apply row_for_qty).
  rewrite qsum_minus.
  rewrite !qsum_qty_of; try done; try apply NoDup_merge_keys;
    intros k Hk; apply elem_of_merge_keys; auto.
Qed.

(** ** Separator rules of [clean_quantity] *)

Lemma lstrip_id (s : ustr) : Forall (λ c, py_isspace c = false) s → lstrip s = s.
Proof. destruct s as [|c r]; [done |]. intros Hs. inversion Hs; subst. simpl. by rewrite H1. Qed.

Lemma py_strip_id (s : ustr) : Forall (λ c, py_isspace c = false) s → py_strip s = s.
Proof.
  intros Hs. unfold py_strip, rstrip. rewrite (lstrip_id s Hs).
  rewrite lstrip_id; [apply reverse_involutive |]. by apply Forall_reverse.
Qed.

Lemma replace_char_app (c : uchar) (r x y : ustr) :
  replace_char c r (x ++ y) = replace_char c r x ++ replace_char c r y.
Proof. apply bind_app. Qed.

Lemma replace_char_absent (c : uchar) (r s : ustr) : c ∉ s → replace_char c r s = s.
Proof.
  induction s as [|x s IH]; intros Hc; [done |].
  unfold replace_char in *. rewrite bind_cons, IH by (intros ?; apply Hc; by right).
  destruct (N.eqb_spec x c) as [-> | ]; [exfalso; apply Hc; left | done].
Qed.

Lemma replace_char_cons_hit (c : uchar) (r s : ustr) :
  replace_char c r (c :: s) = r ++ replace_char c r s.
Proof. unfold replace_char. rewrite bind_cons. by rewrite N.eqb_refl. Qed.

Lemma count_char_app (c : uchar) (x y : ustr) :
  count_char c (x ++ y) = (count_char c x + count_char c y)%nat.
Proof. unfold count_char. by rewrite filter_app, length_app. Qed.

Lemma count_char_absent (c : uchar) (s : ustr) : c ∉ s → count_char c s = 0%nat.
Proof.
  intros Hc. unfold count_char.
  induction s as [|x s IH]; [done |]. rewrite filter_cons_False.
  - apply IH. intros ?. apply Hc. by right.
  - intros ->. apply Hc. by left.
Qed.

Lemma count_char_cons_hit (c : uchar) (s : ustr) :
  count_char c (c :: s) = S (count_char c s).
Proof. unfold count_char. by rewrite filter_cons_True. Qed.

Lemma rfind_from_app (c : uchar) (i : Z) (x y : ustr) (acc : Z) :
  rfind_from c i (x ++ y) acc = rfind_from c (i + Z.of_nat (length x)) y (rfind_from c i x acc).
Proof.
  revert i acc; induction x as [|a x IH]; intros i acc; simpl.
  - by rewrite Z.add_0_r.
  - rewrite IH. f_equal. lia.
Qed.

Lemma rfind_from_absent (c : uchar) (i : Z) (y : ustr) (acc : Z) :
  c ∉ y → rfind_from c i y acc = acc.
Proof.
  revert i acc; induction y as [|a y IH]; intros i acc Hc; [done |]. simpl.
  destruct (N.eqb_spec a c) as [-> | ]; [exfalso; apply Hc; left |].
  apply IH. intros ?. apply Hc. by right.
Qed.

Lemma rfind_from_lt (c : uchar) (i : Z) (x : ustr) (acc : Z) :
  (acc < i)%Z → (rfind_from c i x acc < i + Z.of_nat (length x))%Z.
Proof.
  revert i acc; induction x as [|a x IH]; intros i acc Hacc; simpl; [lia |].
  eapply Z.lt_le_trans; [apply IH; destruct (a =? c)%N; lia | lia].
Qed.

Lemma rfind_last (c : uchar) (x f : ustr) :
  c ∉ f → rfind c (x ++ c :: f) = Z.of_nat (length x).
Proof.
  intros Hf. unfold rfind. rewrite rfind_from_app. simpl. rewrite N.eqb_refl.
  rewrite rfind_from_absent by done. lia.
Qed.

Lemma rfind_before (c d : uchar) (x f : ustr) :
  c ≠ d → c ∉ f → (rfind c (x ++ d :: f) < Z.of_nat (length x))%Z.
Proof.
  intros Hcd Hf. unfold rfind. rewrite rfind_from_app. simpl.
  destruct (N.eqb_spec d c); [congruence |].
  rewrite rfind_from_absent by done.
  pose proof (rfind_from_lt c 0 x (-1)). lia.
Qed.

Lemma elem_of_py_upper_sep (c : uchar) (s : ustr) :
  (c = 44 ∨ c = 46)%N → c ∈ s → c ∈ py_upper s.
Proof.
  intros Hc Hs. unfold py_upper. apply list_elem_of_bind. exists c. split; [| done].
  unfold upper_char. destruct Hc as [-> | ->]; simpl; by left.
Qed.

Lemma join_with_cons (t : uchar) (b : ustr) (r : list ustr) :
  r ≠ [] → join_with t (b :: r) = b ++ t :: join_with t r.
Proof. destruct r; [done | reflexivity]. Qed.

Lemma join_with_Forall (P : uchar → Prop) (t : uchar) (bs : list ustr) :
  P t → Forall (Forall P) bs → Forall P (join_with t bs).
Proof.
  intros Ht Hbs. induction Hbs as [|b r Hb Hr IH]; [constructor |].
  destruct r as [|b' r]; [done |]. rewrite join_with_cons by done.
  apply Forall_app. split; [done | by constructor].
Qed.

Lemma join_with_absent (t c : uchar) (bs : list ustr) :
  c ≠ t → Forall (λ b, c ∉ b) bs → c ∉ join_with t bs.
Proof.
  intros Hct Hbs. induction Hbs as [|b r Hb Hr IH]; [apply not_elem_of_nil |].
  destruct r as [|b' r]; [done |]. rewrite join_with_cons by done.
  rewrite elem_of_app, elem_of_cons. intuition.
Qed.

Lemma join_with_count (t : uchar) (bs : list ustr) :
  Forall (λ b, t ∉ b) bs → count_char t (join_with t bs) = pred (length bs).
Proof.
  intros Hbs. induction Hbs as [|b r Hb Hr IH]; [done |].
  destruct r as [|b' r]; [by apply count_char_absent |]. rewrite join_with_cons by done.
  rewrite count_char_app, count_char_cons_hit, IH, count_char_absent by done. simpl. lia.
Qed.

Lemma join_with_replace (t : uchar) (bs : list ustr) :
  Forall (λ b, t ∉ b) bs → replace_char t [] (join_with t bs) = concat bs.
Proof.
  intros Hbs. induction Hbs as [|b r Hb Hr IH]; [done |].
  destruct r as [|b' r]; [simpl; rewrite app_nil_r; by apply replace_char_absent |].
  rewrite join_with_cons by done.
  rewrite replace_char_app, replace_char_cons_hit, IH, replace_char_absent by done. done.
Qed.

Lemma plain_block_absent (b : ustr) (c : uchar) :
  plain_block b → (c = 44 ∨ c = 46)%N → c ∉ b.
Proof.
  intros Hb Hc Hin. unfold plain_block in Hb. rewrite Forall_forall in Hb.
  destruct (Hb c Hin) as (? & ? & _). destruct Hc; contradiction.
Qed.

Lemma plain_block_nospace (b : ustr) : plain_block b → Forall (λ c, py_isspace c = false) b.
Proof. intros Hb. eapply Forall_impl; [exact Hb |]. by intros c (_ & _ & ?). Qed.

Lemma concat_absent (c : uchar) (bs : list ustr) : Forall (λ b, c ∉ b) bs → c ∉ concat bs.
Proof.
  induction 1 as [|b r Hb Hr IH]; simpl; [apply not_elem_of_nil |].
  rewrite elem_of_app. tauto.
Qed.

Lemma sep_not_in_NAN (d : uchar) : (d = 44 ∨ d = 46)%N → d ∉ u "NAN".
Proof. intros [-> | ->] H; apply list_elem_of_In in H; vm_compute in H; lia. Qed.

Lemma quantity_text_both_present (t d : uchar) (bs : list ustr) (f : ustr) :
  (t = 46 ∧ d = 44 ∨ t = 44 ∧ d = 46)%N → 2 ≤ length bs →
  Forall plain_block bs → plain_block f →
  quantity_text (Some (join_with t bs ++ d :: f)) = Some (concat bs ++ 46%N :: f).
Proof.
  intros Ht Hlen Hbs Hf.
  assert (Htd : t ≠ d) by (destruct Ht as [[-> ->] | [-> ->]]; discriminate).
  assert (Hts : (t = 44 ∨ t = 46)%N) by (destruct Ht as [[-> _] | [-> _]]; auto).
  assert (Hds : (d = 44 ∨ d = 46)%N) by (destruct Ht as [[_ ->] | [_ ->]]; auto).
  assert (Habs : ∀ c, (c = 44 ∨ c = 46)%N → Forall (λ b, c ∉ b) bs ∧ c ∉ f).
  { intros c Hc. split; [| by apply plain_block_absent].
    eapply Forall_impl; [exact Hbs |]. intros b Hb. by apply plain_block_absent. }
  destruct (Habs t Hts) as [Htb Htf]. destruct (Habs d Hds) as [Hdb Hdf].
  set (J := join_with t bs). set (s := J ++ d :: f).
  assert (HJsp : Forall (λ c, py_isspace c = false) J).
  { apply join_with_Forall; [by destruct Hts as [-> | ->] |].
    eapply Forall_impl; [exact Hbs |]. intros b. apply plain_block_nospace. }
  assert (Hssp : Forall (λ c, py_isspace c = false) s).
  { apply Forall_app. split; [done |]. constructor; [by destruct Hds as [-> | ->] |].
    by apply plain_block_nospace. }
  assert (Hds_in : d ∈ s) by (apply elem_of_app; right; left).
  assert (Hsp32 : 32%N ∉ s).
  { intros Hin. rewrite Forall_forall in Hssp. specialize (Hssp _ Hin). discriminate. }
  unfold quantity_text. rewrite py_strip_id by done.
  rewrite decide_False.
  2:{ intros [Hn | Hn]; [by destruct J |].
      apply (sep_not_in_NAN d Hds). rewrite <- Hn. by apply elem_of_py_upper_sep. }
  rewrite (replace_char_absent 32 [] s) by done.
  assert (HdJ : d ∉ J) by (apply join_with_absent; auto).
  assert (Hct : count_char t s = pred (length bs)).
  { unfold s, J. rewrite count_char_app, join_with_count by done.
    rewrite count_char_absent; [lia |]. rewrite elem_of_cons. tauto. }
  assert (Hcd : count_char d s = 1).
  { unfold s. rewrite count_char_app, count_char_absent by done.
    rewrite count_char_cons_hit, count_char_absent by done. done. }
  assert (HrT : (rfind t s < Z.of_nat (length J))%Z) by (by apply rfind_before).
  assert (HrD : rfind d s = Z.of_nat (length J)) by (by apply rfind_last).
  destruct Ht as [[-> ->] | [-> ->]].
  - rewrite Hct, Hcd.
    rewrite decide_False by lia. rewrite decide_False by lia. rewrite decide_True by lia.
    rewrite HrD. destruct (Z.ltb_spec (rfind 46 s) (Z.of_nat (length J))); [| lia].
    unfold s, J. rewrite replace_char_app, join_with_replace by done.
    rewrite (replace_char_absent 46 [] (44%N :: f)) by (rewrite elem_of_cons; intuition discriminate).
    rewrite replace_char_app, replace_char_cons_hit.
    rewrite (replace_char_absent 44 _ (concat bs)) by (by apply concat_absent).
    rewrite (replace_char_absent 44 _ f) by done. done.
  - rewrite Hct, Hcd.
    rewrite decide_False by lia. rewrite decide_False by lia. rewrite decide_True by lia.
    rewrite HrD. destruct (Z.ltb_spec (Z.of_nat (length J)) (rfind 44 s)); [lia |].
    unfold s, J. rewrite replace_char_app, join_with_replace by done.
    rewrite (replace_char_absent 44 [] (46%N :: f)) by (rewrite elem_of_cons; intuition discriminate).
    done.
Qed.

Lemma quantity_text_lone_comma (a f : ustr) :
  plain_block a → plain_block f → length f ≤ 2 →
  quantity_text (Some (a ++ 44%N :: f)) = Some (a ++ 46%N :: f).
Proof.
  intros Ha Hf Hlen. set (s := a ++ 44%N :: f).
  assert (Hssp : Forall (λ c, py_isspace c = false) s).
  { apply Forall_app. split; [by apply plain_block_nospace |].
    constructor; [done | by apply plain_block_nospace]. }
  assert (Hsp32 : 32%N ∉ s).
  { intros Hin. rewrite Forall_forall in Hssp. specialize (Hssp _ Hin). discriminate. }
  unfold quantity_text. rewrite py_strip_id by done.
  rewrite decide_False.
  2:{ intros [Hn | Hn]; [by destruct a |].
      apply (sep_not_in_NAN 44); [auto |]. rewrite <- Hn.
      apply elem_of_py_upper_sep; [auto |]. apply elem_of_app; right; left. }
  rewrite (replace_char_absent 32 [] s) by done.
  assert (Hdot : count_char 46 s = 0).
  { apply count_char_absent. unfold s. rewrite elem_of_app, elem_of_cons.
    pose proof (plain_block_absent a 46) as H1. pose proof (plain_block_absent f 46) as H2.
    intuition discriminate. }
  assert (Hcom : count_char 44 s = 1).
  { unfold s. rewrite count_char_app, count_char_cons_hit.
    rewrite !count_char_absent by (apply plain_block_absent; auto). done. }
  rewrite Hdot, Hcom. rewrite decide_False by lia. rewrite decide_True by lia.
  unfold s at 2. rewrite rfind_last by (apply plain_block_absent; auto).
  unfold s at 1. rewrite length_app. simpl.
  destruct (Z.leb_spec (Z.of_nat (length a + S (length f)) - Z.of_nat (length a) - 1) 2); [| lia].
  unfold s. rewrite replace_char_app, replace_char_cons_hit.
  rewrite !replace_char_absent by (apply plain_block_absent; auto). done.
Qed.

(** C2: [clean_quantity] parses "1,234.56" and "1.234,56" as 1234.56 and
    "1,5" as 1.5, and gives 0 for "" and "abc". When both '.' and ',' occur
    (digit blocks joined by the thousands separator, then the other
    separator and the decimals), the separator that comes last is the
    decimal point and the earlier ones are dropped; a lone comma followed by
    at most two characters is a decimal point; blank text gives 0; text that
    is still unparseable after the separator rules gives 0 (no error: the
    function is total). *)
Theorem clean_quantity_separator_rules :
  pf_eq (clean_quantity (Some (u "1,234.56"))) (PFin 1234.56) ∧
  pf_eq (clean_quantity (Some (u "1.234,56"))) (PFin 1234.56) ∧
  pf_eq (clean_quantity (Some (u "1,5"))) (PFin 1.5) ∧
  clean_quantity (Some (u "")) = PFin 0 ∧
  clean_quantity (Some (u "abc")) = PFin 0 ∧
  (∀ (t d : uchar) (bs : list ustr) (f : ustr),
     (t = 46 ∧ d = 44 ∨ t = 44 ∧ d = 46)%N → 2 ≤ length bs →
     Forall plain_block bs → plain_block f →
     clean_quantity (Some (join_with t bs ++ d :: f))
     = float_or_zero (concat bs ++ 46%N :: f)) ∧
  (∀ a f : ustr, plain_block a → plain_block f → length f ≤ 2 →
     clean_quantity (Some (a ++ 44%N :: f)) = float_or_zero (a ++ 46%N :: f)) ∧
  (∀ v : ustr, py_strip v = [] → clean_quantity (Some v) = PFin 0) ∧
  (∀ v t : ustr, quantity_text (Some v) = Some t → py_float t = None →
     clean_quantity (Some v) = PFin 0).
Proof.
  split; [vm_compute; reflexivity |].
  split; [vm_compute; reflexivity |].
  split; [vm_compute; reflexivity |].
  split; [reflexivity |].
  split; [vm_compute; reflexivity |].
  split.
  { intros t d bs f Ht Hlen Hbs Hf. unfold clean_quantity.
    by rewrite quantity_text_both_present. }
  split.
  { intros a f Ha Hf Hlen. unfold clean_quantity. by rewrite quantity_text_lone_comma. }
  split.
  { intros v Hv. unfold clean_quantity, quantity_text. rewrite Hv.
    rewrite decide_True by auto. done. }
  intros v t Hq Hf. unfold clean_quantity, float_or_zero. by rewrite Hq, Hf.
Qed.

Lemma clean_quantity_separator_rules_witness :
  2 ≤ length [u "1"; u "234"; u "567"] ∧
  Forall plain_block [u "1"; u "234"; u "567"] ∧ plain_block (u "89") ∧
  pf_eq (clean_quantity (Some (u "1.234.567,89"))) (PFin 1234567.89).
Proof.
  split; [simpl; lia |].
  split; [repeat constructor; vm_compute; congruence |].
  split; [repeat constructor; vm_compute; congruence |].
  destruct clean_quantity_separator_rules as (_ & _ & _ & _ & _ & Hboth & _).
  change (u "1.234.567,89") with (join_with 46%N [u "1"; u "234"; u "567"] ++ 44%N :: u "89").
  rewrite (Hboth 46%N 44%N); [vm_compute; reflexivity | auto | simpl; lia | |];
    repeat constructor; vm_compute; congruence.
Defined.

Lemma compare_dataframes_row_counts_witness :
  NoDup (codes ex_table1) ∧ NoDup (codes ex_table2) ∧
  let res := compare_dataframes ex_table1 ex_table2 in
  let s1 : gset ustr := list_to_set (codes ex_table1) in
  let s2 : gset ustr := list_to_set (codes ex_table2) in
  length (comparison_complete res) = size (s1 ∪ s2) ∧
  length (not_in_file2 res) + length (not_in_file1 res) + size (s1 ∩ s2)
  = length (comparison_complete res).
Proof.
  assert (H1 : NoDup (codes ex_table1)) by (vm_compute; repeat constructor; set_solver).
  assert (H2 : NoDup (codes ex_table2)) by (vm_compute; repeat constructor; set_solver).
  split; [exact H1 |]. split; [exact H2 |].
  exact (compare_dataframes_row_counts ex_table1 ex_table2 H1 H2).
Defined.

Lemma compare_dataframes_swap_witness :
  NoDup (codes ex_table1) ∧ NoDup (codes ex_table2) ∧
  let r12 := compare_dataframes ex_table1 ex_table2 in
  let r21 := compare_dataframes ex_table2 ex_table1 in
  Forall2 (λ x y, r_code x = r_code y ∧ r_qty1 x = r_qty2 y ∧ r_qty2 x = r_qty1 y ∧
                  (r_diff x == - r_diff y)%Q)
          (comparison_complete r21) (comparison_complete r12) ∧
  not_in_file2 r21 = not_in_file1 r12 ∧
  not_in_file1 r21 = not_in_file2 r12.
Proof.
  assert (H1 : NoDup (codes ex_table1)) by (vm_compute; repeat constructor; set_solver).
  assert (H2 : NoDup (codes ex_table2)) by (vm_compute; repeat constructor; set_solver).
  split; [exact H1 |]. split; [exact H2 |].
  exact (compare_dataframes_swap ex_table1 ex_table2 H1 H2).
Defined.

Lemma total_difference_identity_witness :
  NoDup (codes ex_table1) ∧ NoDup (codes ex_table2) ∧
  let sm := create_summary_data ex_table1 ex_table2 (compare_dataframes ex_table1 ex_table2) in
  (s_total_difference sm == s_qty_sum1 sm - s_qty_sum2 sm)%Q.
Proof.
  assert (H1 : NoDup (codes ex_table1)) by (vm_compute; repeat constructor; set_solver).
  assert (H2 : NoDup (codes ex_table2)) by (vm_compute; repeat constructor; set_solver).
  split; [exact H1 |]. split; [exact H2 |].
  exact (total_difference_identity ex_table1 ex_table2 H1 H2).
Defined.

(* ------------------------------------------------------------------ *)
(** ** [clean_code_format] *)

(** A character [str.upper] leaves as it is. *)
Definition upper_fixed (y : uchar) : Prop := upper_char y = [y].

(** The text does not start with whitespace. *)
Definition head_ok (s : ustr) : Prop :=
  match s with [] => True | c :: _ => py_isspace c = false end.

Lemma upper_char_id (x : uchar) :
  ¬ (97 ≤ x ≤ 122)%N → ¬ (224 ≤ x ≤ 254 ∧ x ≠ 247)%N → x ≠ 223%N → x ≠ 255%N →
  x ≠ 181%N →
  upper_fixed x.
Proof.
  intros H1 H2 H3 H4 H5. unfold upper_fixed, upper_char.
  destruct (N.leb_spec 97 x), (N.leb_spec x 122); simpl; try lia;
  destruct (N.leb_spec 224 x), (N.leb_spec x 254); simpl; try lia;
  destruct (N.eqb_spec x 247); simpl; try lia;
  destruct (N.eqb_spec x 223), (N.eqb_spec x 255), (N.eqb_spec x 181); simpl; (done || lia).
Qed.

Lemma upper_char_out (c x : uchar) : x ∈ upper_char c → upper_fixed x.
Proof.
  unfold upper_char.
  destruct (N.leb_spec 97 c), (N.leb_spec c 122); simpl;
  destruct (N.leb_spec 224 c), (N.leb_spec c 254); simpl;
  destruct (N.eqb_spec c 247); simpl;
  destruct (N.eqb_spec c 223); simpl;
  destruct (N.eqb_spec c 255); simpl;
  destruct (N.eqb_spec c 181); simpl;
  intros Hx; apply list_elem_of_In in Hx; simpl in Hx;
  repeat destruct Hx as [Hx | Hx]; subst; try contradiction;
  apply upper_char_id; lia.
Qed.

Lemma py_isspace_false (y : uchar) :
  (33 ≤ y ≤ 132 ∨ 161 ≤ y ≤ 5759)%N → py_isspace y = false.
Proof.
  intros Hy. apply not_true_iff_false. intros H. unfold py_isspace in H.
  rewrite ?orb_true_iff, ?andb_true_iff, ?N.leb_le, ?N.eqb_eq in H. lia.
Qed.

Lemma upper_char_head (c : uchar) :
  py_isspace c = false → ∃ y r, upper_char c = y :: r ∧ py_isspace y = false.
Proof.
  intros Hc. unfold upper_char.
  destruct (N.leb_spec 97 c), (N.leb_spec c 122); simpl;
  destruct (N.leb_spec 224 c), (N.leb_spec c 254); simpl;
  destruct (N.eqb_spec c 247); simpl;
  destruct (N.eqb_spec c 223); simpl;
  destruct (N.eqb_spec c 255); simpl;
  destruct (N.eqb_spec c 181); simpl;
  eexists _, _; (split; [reflexivity |]);
  first [exact Hc | apply py_isspace_false; lia].
Qed.


Lemma py_upper_Forall (s : ustr) : Forall upper_fixed (py_upper s).
Proof.
  induction s as [|c s IH]; [constructor |].
  unfold py_upper. rewrite bind_cons. apply Forall_app. split; [| exact IH].
  apply Forall_forall. intros x Hx. by apply (upper_char_out c).
Qed.

Lemma py_upper_fixed (s : ustr) : Forall upper_fixed s → py_upper s = s.
Proof.
  induction s as [|c s IH]; intros Hs; [done |].
  inversion Hs as [|? ? Hc Hs']; subst.
  unfold py_upper. rewrite bind_cons. unfold upper_fixed in Hc. rewrite Hc.
  simpl. f_equal. by apply IH.
Qed.

Lemma lstrip_head_ok (s : ustr) : head_ok s → lstrip s = s.
Proof. destruct s as [|c s]; simpl; [done |]. intros ->. done. Qed.

Lemma head_ok_lstrip (s : ustr) : head_ok (lstrip s).
Proof.
  induction s as [|c s IH]; simpl; [done |].
  destruct (py_isspace c) eqn:Hc; [exact IH | exact Hc].
Qed.

Lemma head_ok_app (s t : ustr) : head_ok (s ++ t) → head_ok s.
Proof. by destruct s. Qed.

Lemma head_ok_Forall (s : ustr) : Forall (λ c, py_isspace c = false) s → head_ok s.
Proof. destruct s; [done |]. by inversion 1. Qed.

Lemma head_ok_py_upper (s : ustr) : head_ok s → head_ok (py_upper s).
Proof.
  destruct s as [|c s]; [done |]. intros Hc. simpl in Hc.
  destruct (upper_char_head c Hc) as (y & r & Hu & Hy).
  unfold py_upper. rewrite bind_cons, Hu. exact Hy.
Qed.

Lemma lstrip_suffix (s : ustr) : ∃ p, s = p ++ lstrip s.
Proof.
  induction s as [|c s [p Hp]]; simpl; [by exists [] |].
  destruct (py_isspace c); [exists (c :: p); simpl; by f_equal | by exists []].
Qed.

Lemma rstrip_prefix (s : ustr) : ∃ t, s = rstrip s ++ t.
Proof.
  destruct (lstrip_suffix (reverse s)) as [p Hp]. exists (reverse p).
  unfold rstrip. rewrite <- reverse_app, <- Hp. by rewrite reverse_involutive.
Qed.

Lemma rstrip_id (s : ustr) : ends_in_space s = false → rstrip s = s.
Proof.
  unfold ends_in_space, rstrip. intros Hs.
  rewrite lstrip_head_ok; [apply reverse_involutive |].
  destruct (reverse s) as [|c r] eqn:Hr; [done |]. simpl.
  rewrite <- head_reverse, Hr in Hs. exact Hs.
Qed.

Lemma rstrip_shorter (s : ustr) : ends_in_space s = true → length (rstrip s) < length s.
Proof.
  unfold ends_in_space, rstrip. intros Hs.
  rewrite <- head_reverse in Hs. rewrite length_reverse.
  rewrite <- (length_reverse s).
  destruct (reverse s) as [|c r]; [done |]. simpl in *. rewrite Hs.
  destruct (lstrip_suffix r) as [p Hp].
  assert (length r = length p + length (lstrip r)) by (rewrite Hp at 1; apply length_app).
  lia.
Qed.

Lemma head_ok_py_strip (s : ustr) : head_ok (py_strip s).
Proof.
  unfold py_strip. destruct (rstrip_prefix (lstrip s)) as [t Ht].
  apply (head_ok_app _ t). rewrite <- Ht. apply head_ok_lstrip.
Qed.

Lemma ends_with_dot0 (s : ustr) :
  ends_with (u ".0") s = true → s = take (length s - 2) s ++ [46; 48]%N.
Proof.
  unfold ends_with. rewrite bool_decide_eq_true. intros H.
  change (u ".0") with [46; 48]%N in H. simpl length in H.
  rewrite <- (take_drop (length s - 2) s) at 1. rewrite H. done.
Qed.

Lemma strip_float_suffix_prefix (s : ustr) : ∃ t, s = strip_float_suffix s ++ t.
Proof.
  unfold strip_float_suffix. destruct (ends_with _ _).
  - exists (drop (length s - 2) s). by rewrite take_drop.
  - exists []. by rewrite app_nil_r.
Qed.

Lemma strip_float_suffix_shorter (s : ustr) :
  ends_with (u ".0") s = true → length (strip_float_suffix s) < length s.
Proof.
  intros H. unfold strip_float_suffix. rewrite H.
  pose proof (f_equal length (ends_with_dot0 s H)) as Hl.
  rewrite length_app in Hl. simpl in Hl. lia.
Qed.

Lemma length_strip_float_suffix (s : ustr) : length (strip_float_suffix s) ≤ length s.
Proof.
  destruct (strip_float_suffix_prefix s) as [t Ht].
  rewrite Ht at 2. rewrite length_app. lia.
Qed.

Lemma uint_digits_digits (d : Decimal.uint) : Forall (λ c, is_digit c = true) (uint_digits d).
Proof. induction d; simpl; repeat constructor; auto. Qed.

(** [str(n)] is made of ASCII digits and '-'. *)
Lemma str_int_chars (v : Z) : Forall (λ c, 45 ≤ c ≤ 57 ∧ c ≠ 46 ∧ c ≠ 47)%N (str_int v).
Proof.
  assert (Hd : ∀ d, Forall (λ c, 45 ≤ c ≤ 57 ∧ c ≠ 46 ∧ c ≠ 47)%N (uint_digits d)).
  { intros d. eapply Forall_impl; [apply uint_digits_digits |]. simpl.
    intros c Hc. unfold is_digit in Hc. apply andb_true_iff in Hc as [H1 H2].
    apply N.leb_le in H1, H2. lia. }
  unfold str_int. destruct (v <? 0)%Z; [constructor; [lia | apply Hd] | apply Hd].
Qed.

Lemma ends_in_space_Forall (s : ustr) :
  Forall (λ c, py_isspace c = false) s → ends_in_space s = false.
Proof.
  unfold ends_in_space. intros Hs. destruct (last s) as [c|] eqn:Hl; [| done].
  apply last_Some_elem_of in Hl. by apply (Forall_forall _ s) with c in Hs.
Qed.

Lemma str_int_no_space (v : Z) : Forall (λ c, py_isspace c = false) (str_int v).
Proof.
  eapply Forall_impl; [apply str_int_chars |]. intros c Hc. cbv beta in Hc. apply py_isspace_false. lia.
Qed.

Lemma str_int_no_space_end (v : Z) : ends_in_space (str_int v) = false.
Proof. apply ends_in_space_Forall, str_int_no_space. Qed.

Lemma str_int_no_dot0 (v : Z) : ends_with (u ".0") (str_int v) = false.
Proof.
  destruct (ends_with (u ".0") (str_int v)) eqn:Hd; [exfalso | done].
  pose proof (str_int_chars v) as Hc. rewrite (ends_with_dot0 _ Hd) in Hc.
  apply Forall_app in Hc as [_ Hc]. inversion Hc. lia.
Qed.

Lemma str_int_stable (v : Z) : clean_code_format (str_int v) = str_int v.
Proof.
  pose proof (str_int_chars v) as Hc.
  assert (Hup : py_upper (str_int v) = str_int v).
  { apply py_upper_fixed. eapply Forall_impl; [exact Hc |]. intros c Hc'.
    cbv beta in Hc'. apply upper_char_id; lia. }
  unfold clean_code_format, py_strip.
  rewrite (lstrip_head_ok _ (head_ok_Forall _ (str_int_no_space v))).
  rewrite (rstrip_id _ (str_int_no_space_end v)), Hup.
  unfold strip_float_suffix. rewrite str_int_no_dot0.
  unfold expand_scientific, contains_char. rewrite Hup, bool_decide_eq_false_2; [done |].
  intros H69. apply (Forall_forall _ _) with 69%N in Hc; [cbv beta in Hc; lia | exact H69].
Qed.

Lemma expand_cases (s : ustr) :
  expand_scientific s = s ∨ ∃ v, expand_scientific s = str_int v.
Proof.
  unfold expand_scientific. destruct (contains_char _ _); [| by left].
  destruct (decimal_of_string s) as [[neg m e | | ] |]; try by left.
  destruct (dec_integral m e); [right; by eexists | by left].
Qed.

(** C3 (as stated, refuted): applying [clean_code_format] twice to "1.0.0"
    gives "1" but once gives "1.0"; for "1 .0" twice gives "1" and once
    "1 " (only one ".0" suffix is removed, and the text is stripped before
    the suffix is removed, not after). *)
Lemma clean_code_format_not_idempotent :
  clean_code_format (u "1.0.0") = u "1.0" ∧
  clean_code_format (clean_code_format (u "1.0.0")) = u "1" ∧
  clean_code_format (u "1 .0") = u "1 " ∧
  clean_code_format (clean_code_format (u "1 .0")) = u "1".
Proof. vm_compute. repeat split. Qed.

(** C3 (amended): for every string [x], [clean_code_format] is a fixed point
    on [clean_code_format(x)], i.e.
    [clean_code_format(clean_code_format(x)) == clean_code_format(x)],
    exactly when [clean_code_format(x)] neither ends in ".0" nor ends in a
    whitespace character. *)
Theorem clean_code_format_idempotent_iff (x : ustr) :
  clean_code_format (clean_code_format x) = clean_code_format x ↔
  ends_with (u ".0") (clean_code_format x) = false ∧
  ends_in_space (clean_code_format x) = false.
Proof.
  set (s := strip_float_suffix (py_upper (py_strip x))).
  assert (Hccf : clean_code_format x = expand_scientific s) by reflexivity.
  destruct (strip_float_suffix_prefix (py_upper (py_strip x))) as [t Ht]. fold s in Ht.
  assert (Hup : Forall upper_fixed s).
  { pose proof (py_upper_Forall (py_strip x)) as H. rewrite Ht in H.
    by apply Forall_app in H as [H _]. }
  assert (Hhd : head_ok s).
  { apply (head_ok_app _ t). rewrite <- Ht. apply head_ok_py_upper, head_ok_py_strip. }
  rewrite Hccf.
  destruct (expand_cases s) as [He | [v He]]; rewrite He.
  2: { rewrite str_int_stable. split; [intros _ | done].
       split; [apply str_int_no_dot0 | apply str_int_no_space_end]. }
  assert (Hs : clean_code_format s = expand_scientific (strip_float_suffix (rstrip s))).
  { unfold clean_code_format, py_strip. rewrite (lstrip_head_ok s Hhd).
    destruct (rstrip_prefix s) as [t' Ht'].
    rewrite py_upper_fixed; [done |]. rewrite Ht' in Hup.
    by apply Forall_app in Hup as [? _]. }
  rewrite Hs. split.
  - intros Hfix.
    assert (Hbad : ends_in_space s = true ∨ ends_with (u ".0") s = true → False).
    { intros Hbad.
      destruct (expand_cases (strip_float_suffix (rstrip s))) as [He2 | [w He2]];
        rewrite He2 in Hfix.
      - pose proof (length_strip_float_suffix (rstrip s)) as Hl.
        destruct (ends_in_space s) eqn:Hsp.
        + pose proof (rstrip_shorter s Hsp). rewrite Hfix in Hl. lia.
        + destruct Hbad as [? | Hd]; [discriminate |].
          rewrite (rstrip_id s Hsp) in Hfix.
          pose proof (strip_float_suffix_shorter s Hd) as Hl'. rewrite Hfix in Hl'. lia.
      - destruct Hbad as [Hsp | Hd].
        + rewrite <- Hfix, str_int_no_space_end in Hsp. discriminate.
        + rewrite <- Hfix, str_int_no_dot0 in Hd. discriminate. }
    split; [destruct (ends_with (u ".0") s) | destruct (ends_in_space s)]; auto;
      exfalso; auto.
  - intros [Hd Hsp]. rewrite (rstrip_id s Hsp). unfold strip_float_suffix. rewrite Hd.
    exact He.
Qed.

(* ------------------------------------------------------------------ *)
(** ** [aggregate_by_code] *)

Lemma first_non_empty_spec (l : list ustr) :
  (∃ pre v post, l = pre ++ v :: post ∧ Forall blank_product pre ∧
                 ¬ blank_product v ∧ first_non_empty l = v) ∨
  (Forall blank_product l ∧ first_non_empty l = []).
Proof.
  induction l as [|v l IH]; [right; split; [constructor | done] |]. simpl.
  destruct (decide (v ≠ [] ∧ py_strip v ≠ [] ∧ py_upper (py_strip v) ≠ u "NAN"))
    as [Hv | Hv].
  - left. exists [], v, l. split; [done |]. split; [constructor |].
    split; [| done]. unfold blank_product. tauto.
  - assert (Hb : blank_product v).
    { unfold blank_product. destruct (decide (v = [])) as [-> | Hn]; [by left |].
      destruct (decide (py_strip v = [])) as [| Hs]; [by left | right].
      destruct (decide (py_upper (py_strip v) = u "NAN")); [done | tauto]. }
    destruct IH as [(pre & w & post & -> & Hpre & Hw & Hf) | [Hall Hf]].
    + left. exists (v :: pre), w, post. repeat split; [by constructor | done | done].
    + right. split; [by constructor | done].
Qed.

Lemma aggregate_codes {A} (add : A → A → A) (zero : A) (rows : list (cleaned_row A)) :
  map cl_code (aggregate_by_code add zero rows) = sort_str (dedup (map cl_code rows)).
Proof. unfold aggregate_by_code. rewrite map_map. apply map_id. Qed.

Lemma NoDup_aggregate_codes {A} (add : A → A → A) (zero : A) (rows : list (cleaned_row A)) :
  NoDup (map cl_code (aggregate_by_code add zero rows)).
Proof. rewrite aggregate_codes, sort_str_Permutation. apply NoDup_dedup. Qed.

Lemma elem_of_aggregate_codes {A} (add : A → A → A) (zero : A)
    (rows : list (cleaned_row A)) (k : ustr) :
  k ∈ map cl_code (aggregate_by_code add zero rows) ↔ k ∈ map cl_code rows.
Proof. by rewrite aggregate_codes, sort_str_Permutation, elem_of_dedup. Qed.

Lemma elem_of_aggregate {A} (add : A → A → A) (zero : A) (rows : list (cleaned_row A))
    (r : cleaned_row A) :
  r ∈ aggregate_by_code add zero rows →
  let g := group_of rows (cl_code r) in
  cl_prod r = first_non_empty (map cl_prod g) ∧ cl_qty r = foldl add zero (map cl_qty g).
Proof.
  unfold aggregate_by_code. intros Hr. apply list_elem_of_In, in_map_iff in Hr.
  destruct Hr as (k & <- & _). done.
Qed.

Lemma foldl_Qplus (a : Q) (l : list Q) : (foldl Qplus a l == a + qsum l)%Q.
Proof.
  revert a. induction l as [|x l IH]; intros a; simpl; [ring |].
  rewrite IH. unfold qsum. simpl. ring.
Qed.

Lemma qsum_group (rows : list (cleaned_row Q)) (k : ustr) :
  (qsum (map cl_qty (group_of rows k))
   == qsum (map (λ x, if decide (cl_code x = k) then cl_qty x else 0) rows))%Q.
Proof.
  unfold group_of. induction rows as [|x rows IH]; [reflexivity |].
  rewrite filter_cons. simpl. unfold qsum in *.
  destruct (decide (cl_code x = k)); simpl; rewrite IH; ring.
Qed.

(** C5: under exact arithmetic, [aggregate_by_code] on a cleaned table gives
    one record per distinct code (codes unique, the same codes as the
    input); a record's quantity is the sum of the quantities of the input
    rows with its code; its product is the first value of its group, in
    original row order, that is not blank and not "NAN", or "" when there is
    none. Rows "A" with "" and 3 then "A" with "Tornillo" and 7 give the
    single record "A", "Tornillo", 10 (also when a "Nan" row comes first). *)
Theorem aggregate_by_code_spec (rows : list (cleaned_row Q)) :
  let out := aggregate_by_code Qplus 0%Q rows in
  NoDup (map cl_code out) ∧
  (∀ k, k ∈ map cl_code out ↔ k ∈ map cl_code rows) ∧
  (∀ r, r ∈ out →
     let names := map cl_prod (group_of rows (cl_code r)) in
     (cl_qty r == qsum (map (λ x, if decide (cl_code x = cl_code r) then cl_qty x else 0)
                            rows))%Q ∧
     ((∃ pre v post, names = pre ++ v :: post ∧ Forall blank_product pre ∧
                     ¬ blank_product v ∧ cl_prod r = v) ∨
      (Forall blank_product names ∧ cl_prod r = []))) ∧
  aggregate_by_code Qplus 0%Q
    [CleanedRow (u "A") (u "") 3%Q; CleanedRow (u "A") (u "Tornillo") 7%Q]
  = [CleanedRow (u "A") (u "Tornillo") 10%Q] ∧
  aggregate_by_code Qplus 0%Q
    [CleanedRow (u "A") (u "Nan") 3%Q; CleanedRow (u "A") (u "Tornillo") 7%Q]
  = [CleanedRow (u "A") (u "Tornillo") 10%Q].
Proof.
  intros out. split; [apply NoDup_aggregate_codes |].
  split; [intros k; apply elem_of_aggregate_codes |].
  split; [| split; vm_compute; reflexivity].
  intros r Hr names. destruct (elem_of_aggregate _ _ _ _ Hr) as [Hp Hq]. split.
  - rewrite Hq, foldl_Qplus, qsum_group. ring.
  - rewrite Hp. fold names.
    destruct (first_non_empty_spec names) as [(pre & v & post & H) | H]; [left | right].
    + exists pre, v, post. exact H.
    + exact H.
Qed.

(* ------------------------------------------------------------------ *)
(** ** [clean_dataframe] followed by [aggregate_by_code] *)

Lemma clean_dataframe_codes (f : frame) (codigo_col : ustr) (producto_col : option ustr)
    (cantidad_col : ustr) (cleaned : list (cleaned_row pyfloat)) :
  clean_dataframe f codigo_col producto_col cantidad_col = Some cleaned →
  Forall (λ r, cl_code r ≠ [] ∧ py_upper (cl_code r) ≠ u "NAN") cleaned.
Proof.
  unfold clean_dataframe. intros H. repeat case_match; simplify_eq;
  apply Forall_forall; intros x Hx;
  apply list_elem_of_filter in Hx as [Hup Hx]; apply list_elem_of_filter in Hx as [Hne _];
  done.
Qed.

(** C6: for every sheet and every choice of code, product and quantity
    columns, when [clean_dataframe] succeeds, the table [aggregate_by_code]
    makes of its result has no two records with the same code, and no
    record whose code is "" or "NAN". *)
Theorem clean_aggregate_canonical (f : frame) (codigo_col : ustr)
    (producto_col : option ustr) (cantidad_col : ustr)
    (cleaned : list (cleaned_row pyfloat)) :
  clean_dataframe f codigo_col producto_col cantidad_col = Some cleaned →
  let out := aggregate_by_code pf_add (PFin 0) cleaned in
  NoDup (map cl_code out) ∧ Forall (λ r, cl_code r ≠ [] ∧ cl_code r ≠ u "NAN") out.
Proof.
  intros H out. split; [apply NoDup_aggregate_codes |].
  pose proof (clean_dataframe_codes _ _ _ _ _ H) as Hc.
  apply Forall_forall. intros r Hr.
  assert (Hk : cl_code r ∈ map cl_code cleaned).
  { apply (elem_of_aggregate_codes pf_add (PFin 0)).
    apply list_elem_of_In, in_map, list_elem_of_In, Hr. }
  apply list_elem_of_In, in_map_iff in Hk as (x & Hx & Hin).
  apply list_elem_of_In in Hin. rewrite Forall_forall in Hc.
  destruct (Hc x Hin) as [Hne Hnan]. rewrite <- Hx. split; [done |].
  intros Heq. apply Hnan. rewrite Heq. reflexivity.
Qed.

Lemma clean_aggregate_canonical_witness :
  clean_dataframe ex_frame (u "Código") (Some (u "Producto")) (u "Cantidad")
  = Some [CleanedRow (u "806") (u "Tornillo") (PFin 3); CleanedRow (u "806") [] (PFin 7);
          CleanedRow (u "12") [] (PFin (12345 # 10))] ∧
  let out := aggregate_by_code pf_add (PFin 0)
    [CleanedRow (u "806") (u "Tornillo") (PFin 3); CleanedRow (u "806") [] (PFin 7);
     CleanedRow (u "12") [] (PFin (12345 # 10))] in
  NoDup (map cl_code out) ∧ Forall (λ r, cl_code r ≠ [] ∧ cl_code r ≠ u "NAN") out.
Proof.
  assert (H : clean_dataframe ex_frame (u "Código") (Some (u "Producto")) (u "Cantidad")
    = Some [CleanedRow (u "806") (u "Tornillo") (PFin 3); CleanedRow (u "806") [] (PFin 7);
            CleanedRow (u "12") [] (PFin (12345 # 10))]) by (vm_compute; reflexivity).
  split; [exact H |]. exact (clean_aggregate_canonical _ _ _ _ _ H).
Defined.

(* ------------------------------------------------------------------ *)
(** ** [detect_column] *)

Lemma first_matching_Some (ps : list ustr) (s p : ustr) :
  first_matching ps s = Some p ↔
  ∃ pre post, ps = pre ++ p :: post ∧ Forall (λ q, re_match q s = false) pre ∧
              re_match p s = true.
Proof.
  induction ps as [|q ps IH]; simpl.
  - split; [done |]. intros (pre & post & H & _). by destruct pre.
  - destruct (re_match q s) eqn:Hq.
    + split.
      * intros [= <-]. exists [], ps. repeat split; [constructor | done].
      * intros (pre & post & Hps & Hpre & Hp). destruct pre as [|y pre]; simplify_eq/=; [done |].
        inversion Hpre; congruence.
    + rewrite IH. split.
      * intros (pre & post & -> & Hpre & Hp). exists (q :: pre), post.
        repeat split; [by constructor | done].
      * intros (pre & post & Hps & Hpre & Hp). destruct pre as [|y pre]; simplify_eq/=.
        { congruence. }
        exists pre, post. inversion Hpre. done.
Qed.

Lemma first_matching_None (ps : list ustr) (s : ustr) :
  first_matching ps s = None ↔ ∀ p, p ∈ ps → re_match p s = false.
Proof.
  induction ps as [|q ps IH]; simpl.
  - split; [| done]. intros _ p Hp. by apply elem_of_nil in Hp.
  - destruct (re_match q s) eqn:Hq.
    + split; [done |]. intros H. rewrite H in Hq; [done |]. apply elem_of_cons; by left.
    + rewrite IH. split.
      * intros H p Hp. apply elem_of_cons in Hp as [-> | Hp]; auto.
      * intros H p Hp. apply H, elem_of_cons. by right.
Qed.

Lemma first_matching_is_Some (ps : list ustr) (s : ustr) :
  is_Some (first_matching ps s) ↔ ∃ p, p ∈ ps ∧ re_match p s = true.
Proof.
  split.
  - intros [p Hp]. apply first_matching_Some in Hp as (pre & post & -> & _ & Hp).
    exists p. split; [apply elem_of_app; right; apply elem_of_cons; by left | done].
  - intros (p & Hp & Hm). destruct (first_matching ps s) eqn:Hf; [by eexists |].
    pose proof (proj1 (first_matching_None ps s) Hf p Hp). congruence.
Qed.

Lemma detect_column_Some (cols ps : list ustr) (c : ustr) :
  detect_column cols ps = Some c ↔
  ∃ pre post, cols = pre ++ c :: post ∧
    (∀ x, x ∈ pre → ∀ p, p ∈ ps → re_match p (py_strip (py_lower x)) = false) ∧
    ∃ p, p ∈ ps ∧ re_match p (py_strip (py_lower c)) = true.
Proof.
  induction cols as [|col r IH]; simpl.
  - split; [done |]. intros (pre & post & H & _). by destruct pre.
  - destruct (first_matching ps (py_strip (py_lower col))) as [q|] eqn:Hf.
    + split.
      * intros [= <-]. exists [], r. split; [done |]. split.
        { intros x Hx. by apply elem_of_nil in Hx. }
        apply first_matching_is_Some. by rewrite Hf.
      * intros (pre & post & Hc & Hpre & Hm). destruct pre as [|y pre]; simplify_eq/=; [done |].
        exfalso. assert (Hn : first_matching ps (py_strip (py_lower y)) = None).
        { apply first_matching_None. apply Hpre. apply elem_of_cons. by left. }
        congruence.
    + rewrite IH. split.
      * intros (pre & post & -> & Hpre & Hm). exists (col :: pre), post.
        split; [done |]. split; [| done].
        intros x Hx. apply elem_of_cons in Hx as [-> | Hx]; [| by apply Hpre].
        by apply first_matching_None.
      * intros (pre & post & Hc & Hpre & Hm). destruct pre as [|y pre]; simplify_eq/=.
        { exfalso. apply first_matching_is_Some in Hm as [q Hq]. congruence. }
        exists pre, post. split; [done |]. split; [| done].
        intros x Hx. apply Hpre, elem_of_cons. by right.
Qed.

Lemma detect_column_None (cols ps : list ustr) :
  detect_column cols ps = None ↔
  ∀ x, x ∈ cols → ∀ p, p ∈ ps → re_match p (py_strip (py_lower x)) = false.
Proof.
  induction cols as [|col r IH]; simpl.
  - split; [| done]. intros _ x Hx. by apply elem_of_nil in Hx.
  - destruct (first_matching ps (py_strip (py_lower col))) as [q|] eqn:Hf.
    + split; [done |]. intros H. exfalso.
      assert (Hn : first_matching ps (py_strip (py_lower col)) = None).
      { apply first_matching_None, H, elem_of_cons. by left. }
      congruence.
    + rewrite IH. split.
      * intros H x Hx. apply elem_of_cons in Hx as [-> | Hx]; [| by apply H].
        by apply first_matching_None.
      * intros H x Hx. apply H, elem_of_cons. by right.
Qed.

Lemma detect_column_Permutation (cols ps ps' : list ustr) :
  ps ≡ₚ ps' → detect_column cols ps' = detect_column cols ps.
Proof.
  intros Hp. induction cols as [|col r IH]; simpl; [done |].
  assert (His : is_Some (first_matching ps' (py_strip (py_lower col))) ↔
                is_Some (first_matching ps (py_strip (py_lower col)))).
  { rewrite !first_matching_is_Some. by setoid_rewrite Hp. }
  destruct (first_matching ps' _) eqn:H1, (first_matching ps _) eqn:H2; try done.
  - exfalso. destruct (proj1 His) as [? ?]; [by eexists | congruence].
  - exfalso. destruct (proj2 His) as [? ?]; [by eexists | congruence].
Qed.

(** C8: for every list of column labels and every ordered pattern list (in
    particular [CODIGO_PATTERNS], [PRODUCTO_PATTERNS], [CANTIDAD_PATTERNS]),
    [detect_column] returns the first column, left to right, whose cleaned
    label ([str(col).lower().strip()]) matches some pattern of the list, and
    [None] when no column matches; for one label the patterns are tried in
    list order and the first match wins; the order of the pattern list never
    changes the column chosen. For example, of the columns "Total" and
    "Cantidad" the quantity column is "Total". *)
Theorem detect_column_first_match (cols patterns : list ustr) :
  (∀ c, detect_column cols patterns = Some c ↔
     ∃ pre post, cols = pre ++ c :: post ∧
       (∀ x, x ∈ pre → ∀ p, p ∈ patterns → re_match p (py_strip (py_lower x)) = false) ∧
       ∃ p, p ∈ patterns ∧ re_match p (py_strip (py_lower c)) = true) ∧
  (detect_column cols patterns = None ↔
     ∀ x, x ∈ cols → ∀ p, p ∈ patterns → re_match p (py_strip (py_lower x)) = false) ∧
  (∀ s p, first_matching patterns s = Some p ↔
     ∃ pre post, patterns = pre ++ p :: post ∧ Forall (λ q, re_match q s = false) pre ∧
                 re_match p s = true) ∧
  (∀ patterns', patterns ≡ₚ patterns' →
     detect_column cols patterns' = detect_column cols patterns) ∧
  detect_column [u "Total"; u "Cantidad"] CANTIDAD_PATTERNS = Some (u "Total") ∧
  detect_column [u "Descripción"; u " CÓD. PRODUCTO "; u "Código"] CODIGO_PATTERNS
    = Some (u " CÓD. PRODUCTO ") ∧
  first_matching CANTIDAD_PATTERNS (u "cant. final") = Some (u "^cant\.?\s*final.*$").
Proof.
  split; [intros c; apply detect_column_Some |].
  split; [apply detect_column_None |].
  split; [intros s p; apply first_matching_Some |].
  split; [intros ps' Hp; by apply detect_column_Permutation |].
  split; [vm_compute; reflexivity |].
  split; vm_compute; reflexivity.
Qed.

(** ** Header-row detection *)

Lemma str_contains_spec (t s : ustr) :
  str_contains t s = true ↔ ∃ a b, s = a ++ t ++ b.
Proof.
  induction s as [|c r IH]; simpl.
  - rewrite bool_decide_eq_true. split.
    + intros ->. by exists [], [].
    + intros (a & b & Hab). symmetry in Hab.
      apply app_eq_nil in Hab as [_ Hab]. by apply app_eq_nil in Hab as [-> _].
  - rewrite orb_true_iff, bool_decide_eq_true, IH. split.
    + intros [Ht | (a & b & ->)].
      * exists [], (drop (length t) (c :: r)). simpl.
        rewrite <- Ht at 1. by rewrite take_drop.
      * by exists (c :: a), b.
    + intros ([|x a] & b & Hab); simpl in Hab.
      * left. rewrite Hab. apply take_app_length.
      * right. injection Hab as -> ->. by exists a, b.
Qed.

(** Substring occurrence is decidable, by [str_contains]. *)
#[global] Instance substring_dec (t s : ustr) : Decision (∃ a b, s = a ++ t ++ b).
Proof.
  destruct (str_contains t s) eqn:E.
  - left. by apply str_contains_spec.
  - right. intros H. apply str_contains_spec in H. congruence.
Defined.

Lemma find_header_row_Some (i : nat) (rows : list (list cell)) (h : nat) :
  find_header_row i rows = Some h ↔
  ∃ k, h = i + k ∧ (∃ row, rows !! k = Some row ∧ 2 ≤ keyword_matches row) ∧
       ∀ j row, j < k → rows !! j = Some row → keyword_matches row < 2.
Proof.
  revert i. induction rows as [|row r IH]; intros i; cbn [find_header_row].
  - split; [done|]. intros (k & _ & (row & Hk & _) & _). by destruct k.
  - destruct (Nat.leb_spec 2 (keyword_matches row)) as [Hle|Hlt].
    + split.
      * intros [= <-]. exists 0. split; [lia|].
        split; [by exists row | intros j ? ?; lia].
      * intros (k & -> & (row' & Hk & Hm) & Hb). destruct k as [|k]; [f_equal; lia|].
        specialize (Hb 0 row ltac:(lia) eq_refl). lia.
    + rewrite IH. split.
      * intros (k & -> & (row' & Hk & Hm) & Hb). exists (S k). split; [lia|].
        split; [by exists row'|].
        intros [|j] row'' Hj Hl; simpl in Hl.
        -- injection Hl as <-. lia.
        -- apply (Hb j); [lia | done].
      * intros (k & -> & (row' & Hk & Hm) & Hb). destruct k as [|k].
        -- simpl in Hk. injection Hk as <-. lia.
        -- exists k. split; [lia|]. split; [by exists row'|].
           intros j row'' Hj Hl. apply (Hb (S j)); [lia | done].
Qed.

Lemma find_header_row_None (i : nat) (rows : list (list cell)) :
  find_header_row i rows = None ↔
  ∀ j row, rows !! j = Some row → keyword_matches row < 2.
Proof.
  revert i. induction rows as [|row r IH]; intros i; cbn [find_header_row].
  - split; [|done]. intros _ j row Hj. by rewrite lookup_nil in Hj.
  - destruct (Nat.leb_spec 2 (keyword_matches row)) as [Hle|Hlt].
    + split; [done|]. intros H. specialize (H 0 row eq_refl). lia.
    + rewrite IH. split.
      * intros H [|j] row' Hl; simpl in Hl; [injection Hl as <-; lia | by apply (H j)].
      * intros H j row' Hl. by apply (H (S j)).
Qed.

(** C9: header-row detection scans the first 30 rows only; a row scores
    the number of pairs (cell, keyword) such that the keyword occurs in the
    cell's text, lower-cased and stripped; the header row is the first
    scanned row scoring at least 2, and when no scanned row does, the
    columns are named positionally. A single cell can score 2 ("Codigo"
    contains "codigo" and "cod"); a header at row 29 is found, one at row 30
    is not. *)
Theorem header_row_detection (sh : sheet) :
  (∀ h, detect_header_row sh = Some h ↔
     h < 30 ∧ (∃ row, sh !! h = Some row ∧ 2 ≤ keyword_matches row) ∧
     ∀ i row, i < h → sh !! i = Some row → keyword_matches row < 2) ∧
  (detect_header_row sh = None ↔
     ∀ i row, i < 30 → sh !! i = Some row → keyword_matches row < 2) ∧
  (∀ h, detect_header_row sh = Some h → read_excel_file sh = header_frame sh h) ∧
  (detect_header_row sh = None → read_excel_file sh = assign_positional_columns sh) ∧
  (∀ row, keyword_matches row =
     length (map (λ v, py_strip (py_lower (cell_str v))) row ≫= λ v,
             filter (λ kw, ∃ a b, py_lower v = a ++ kw ++ b) header_keywords)) ∧
  detect_header_row [[Some (u "Codigo")]] = Some 0 ∧
  detect_header_row (repeat [Some (u "x")] 29 ++ [[Some (u " CÓDIGO "); Some (u "Cantidad")]])
    = Some 29 ∧
  detect_header_row (repeat [Some (u "x")] 30 ++ [[Some (u " CÓDIGO "); Some (u "Cantidad")]])
    = None.
Proof.
  split.
  { intros h. unfold detect_header_row. rewrite find_header_row_Some. split.
    - intros (k & -> & (row & Hk & Hm) & Hb). apply lookup_take_Some in Hk as [Hk Hlt].
      split; [lia|]. split; [by exists row|].
      intros i row' Hi Hl. apply (Hb i); [lia|]. apply lookup_take_Some; split; [done | lia].
    - intros (Hlt & (row & Hk & Hm) & Hb). exists h. split; [lia|].
      split; [exists row; split; [apply lookup_take_Some; split; [done | lia] | done]|].
      intros j row' Hj Hl. apply lookup_take_Some in Hl as [Hl _]. by apply (Hb j). }
  split.
  { unfold detect_header_row. rewrite find_header_row_None. split.
    - intros H i row Hi Hl. apply (H i). apply lookup_take_Some; split; [done | lia].
    - intros H j row Hl. apply lookup_take_Some in Hl as [Hl Hj]. by apply (H j). }
  split; [intros h Hh; unfold read_excel_file; by rewrite Hh|].
  split; [intros Hh; unfold read_excel_file; by rewrite Hh|].
  split.
  { intros row. unfold keyword_matches. f_equal.
    induction (map _ row) as [|v vs IH]; [done|]. rewrite !bind_cons, IH. f_equal.
    apply list_filter_iff. intros kw. apply str_contains_spec. }
  split; [vm_compute; reflexivity|].
  split; vm_compute; reflexivity.
Qed.

(** ** Missing mandatory columns *)

(** A sheet made of the texts Foo, Bar, abc and def, and a sheet whose
    header row (scoring 2 with "nombre" and "detalle") has the labels Foo,
    Bar, Nombre and Detalle. *)
Definition ex_sheet_foo_bar : sheet :=
  [[Some (u "Foo"); Some (u "Bar")]; [Some (u "abc"); Some (u "def")]].
Definition ex_sheet_foo_bar_header : sheet :=
  [[Some (u "Foo"); Some (u "Bar"); Some (u "Nombre"); Some (u "Detalle")];
   [Some (u "a"); Some (u "b"); Some (u "c"); Some (u "d")]].

(** Counterexample to C7: neither sheet has a code or a quantity column,
    and both fail naming the code column, not the quantity one. The first
    has no header row, so its columns are named positionally and the
    message lists "Columna_0, Columna_1", not "Foo, Bar". *)
Lemma process_excel_file_foo_bar :
  columns (read_excel_file ex_sheet_foo_bar) = [u "Columna_0"; u "Columna_1"] ∧
  process_excel_file ex_sheet_foo_bar =
    inl (ValueError (u "No se encontró la columna de Código. Columnas disponibles: Columna_0, Columna_1")) ∧
  process_excel_file ex_sheet_foo_bar_header =
    inl (ValueError (u "No se encontró la columna de Código. Columnas disponibles: Foo, Bar, Nombre, Detalle")).
Proof. split; [|split]; vm_compute; reflexivity. Qed.

(** C7 (amended): the columns of the sheet as read ([read_excel_file]) are
    searched for a code column first: when there is none, the error names
    the code column whatever else is missing; when there is one but no
    quantity column, the error names the quantity column; a [ValueError]
    happens only in these two cases. The message lists the stripped labels,
    the first 10 of them joined by ", ", followed by "... (+k más)" when
    k > 0 more labels exist. *)
Theorem process_excel_file_missing_columns (sh : sheet) :
  (detect_column (columns (read_excel_file sh)) CODIGO_PATTERNS = None →
   process_excel_file sh =
     inl (ValueError (u "No se encontró la columna de Código. Columnas disponibles: " ++
                      available_cols_str (columns (read_excel_file sh))))) ∧
  (∀ c, detect_column (columns (read_excel_file sh)) CODIGO_PATTERNS = Some c →
   detect_column (columns (read_excel_file sh)) CANTIDAD_PATTERNS = None →
   process_excel_file sh =
     inl (ValueError (u "No se encontró la columna de Cantidad. Columnas disponibles: " ++
                      available_cols_str (columns (read_excel_file sh))))) ∧
  (∀ msg, process_excel_file sh = inl (ValueError msg) →
   detect_column (columns (read_excel_file sh)) CODIGO_PATTERNS = None ∨
   detect_column (columns (read_excel_file sh)) CANTIDAD_PATTERNS = None) ∧
  (∀ cols, length cols ≤ 10 → available_cols_str cols = join_str (u ", ") (map py_strip cols)) ∧
  (∀ cols, 10 < length cols →
   available_cols_str cols =
     join_str (u ", ") (take 10 (map py_strip cols)) ++
     u "... (+" ++ str_int (Z.of_nat (length cols - 10)) ++ u " más)") ∧
  process_excel_file [[Some (u "Código"); Some (u "Descripción")]; [Some (u "1"); Some (u "Tornillo")]] =
    inl (ValueError (u "No se encontró la columna de Cantidad. Columnas disponibles: Código, Descripción")) ∧
  available_cols_str (repeat (u " A ") 12) = u "A, A, A, A, A, A, A, A, A, A... (+2 más)".
Proof.
  unfold process_excel_file. cbv zeta.
  split; [intros Hc; by rewrite Hc|].
  split; [intros c Hc Hq; by rewrite Hc, Hq|].
  split.
  { intros msg. destruct (detect_column _ CODIGO_PATTERNS); [|by left].
    destruct (detect_column _ CANTIDAD_PATTERNS); [|by right].
    by case_match. }
  split.
  { intros cols Hl. unfold available_cols_str. cbv zeta. rewrite length_map.
    destruct (Nat.ltb_spec 10 (length cols)) as [Hlt|_]; [lia|].
    rewrite take_ge; [done|]. rewrite length_map. lia. }
  split.
  { intros cols Hl. unfold available_cols_str. cbv zeta. rewrite length_map.
    destruct (Nat.ltb_spec 10 (length cols)) as [_|Hge]; [done|lia]. }
  split; vm_compute; reflexivity.
Qed.

(** The two cases of C7 on concrete sheets: the positional sheet above
    lacks a code column, the sheet with a "Código" and a "Descripción"
    column lacks a quantity column. *)
Lemma process_excel_file_missing_columns_witness :
  (detect_column (columns (read_excel_file ex_sheet_foo_bar)) CODIGO_PATTERNS = None ∧
   process_excel_file ex_sheet_foo_bar =
     inl (ValueError (u "No se encontró la columna de Código. Columnas disponibles: " ++
                      available_cols_str (columns (read_excel_file ex_sheet_foo_bar))))) ∧
  (let sh := [[Some (u "Código"); Some (u "Descripción")]; [Some (u "1"); Some (u "x")]] in
   detect_column (columns (read_excel_file sh)) CODIGO_PATTERNS = Some (u "Código") ∧
   detect_column (columns (read_excel_file sh)) CANTIDAD_PATTERNS = None ∧
   process_excel_file sh =
     inl (ValueError (u "No se encontró la columna de Cantidad. Columnas disponibles: " ++
                      available_cols_str (columns (read_excel_file sh))))).
Proof.
  split.
  - split; [vm_compute; reflexivity|].
    apply (proj1 (process_excel_file_missing_columns ex_sheet_foo_bar)).
    vm_compute; reflexivity.
  - cbv zeta. split; [vm_compute; reflexivity|]. split; [vm_compute; reflexivity|].
    apply (proj1 (proj2 (process_excel_file_missing_columns _)) (u "Código"));
      vm_compute; reflexivity.
Defined.

(* ================================================================== *)
(** * Further properties of the processor *)

(** ** The rows of [compare_dataframes] *)

(** The product of code [k] in a table with unique codes, [""] if absent. *)
Definition prod_of (t : list canon_row) (k : ustr) : ustr :=
  default [] (c_prod <$> find_code k t).

Lemma cmp_row_for (df1 df2 : list canon_row) (k : ustr) :
  let r := cmp_of_merged (row_for df1 df2 k) in
  r_code r = k ∧ r_qty1 r = qty_of df1 k ∧ r_qty2 r = qty_of df2 k ∧
  r_diff r = (qty_of df1 k - qty_of df2 k)%Q ∧
  r_prod r = py_strip (if decide (prod_of df1 k = []) then prod_of df2 k else prod_of df1 k).
Proof.
  unfold row_for, qty_of, prod_of.
  destruct (find_code k df1) as [a|] eqn:E1, (find_code k df2) as [b|] eqn:E2;
  repeat match goal with H : find_code _ _ = Some _ |- _ => apply find_code_Some in H end;
  unfold cmp_of_merged, merged_product; simpl; (split; [congruence|]);
  repeat split; repeat case_decide; simpl; congruence.
Qed.

Lemma StronglySorted_filter {A} (R : relation A) (P : A → Prop) `{∀ x, Decision (P x)}
    (l : list A) :
  StronglySorted R l → StronglySorted R (filter P l).
Proof.
  induction 1 as [|a l Hs IH Hf]; [constructor|]. rewrite filter_cons.
  case_decide; [|done]. constructor; [done|].
  apply Forall_forall. intros x Hx. apply list_elem_of_filter in Hx as [_ Hx].
  by eapply Forall_forall in Hf.
Qed.

Lemma sort_str_filter (P : ustr → Prop) `{∀ x, Decision (P x)} (l : list ustr) :
  filter P (sort_str l) = sort_str (filter P l).
Proof.
  apply (Sorted_unique lex_le).
  - apply StronglySorted_Sorted, StronglySorted_filter, Sorted_StronglySorted;
      [apply _ | apply sort_str_Sorted].
  - apply sort_str_Sorted.
  - by rewrite sort_str_Permutation, sort_str_Permutation.
Qed.

Lemma filter_map_comm {A B} (P : B → Prop) `{∀ x, Decision (P x)} (f : A → B) (l : list A) :
  filter P (map f l) = map f (filter (λ x, P (f x)) l).
Proof.
  induction l as [|x l IH]; [done|]. simpl. rewrite !filter_cons.
  case_decide; simpl; by rewrite IH.
Qed.

Lemma filter_dedup_codes (df1 df2 : list canon_row) :
  NoDup (codes df1) →
  filter (λ k, k ∉ codes df2) (dedup (codes df1 ++ codes df2))
  ≡ₚ filter (λ k, k ∉ codes df2) (codes df1).
Proof.
  intros Hnd. apply NoDup_Permutation.
  - apply NoDup_filter, NoDup_dedup.
  - by apply NoDup_filter.
  - intros k. rewrite !list_elem_of_filter, elem_of_dedup, elem_of_app. tauto.
Qed.

Section OneSided.
Variables df1 df2 : list canon_row.
Hypothesis Hnd1 : NoDup (codes df1).
Hypothesis Hnd2 : NoDup (codes df2).

Lemma not_in_file2_rows :
  not_in_file2 (compare_dataframes df1 df2)
  = map (λ k, CanonRow k (py_strip (prod_of df1 k)) (qty_of df1 k))
        (sort_str (filter (λ k, k ∉ codes df2) (codes df1))).
Proof.
  simpl. rewrite (outer_merge_unique df1 df2 Hnd1 Hnd2), filter_map_comm, map_map.
  rewrite (filter_ext_in (λ k, m_ind (row_for df1 df2 k) = LeftOnly) (λ k, k ∉ codes df2)).
  2:{ intros k Hk. apply elem_of_merge_keys in Hk.
      rewrite (row_for_ind df1 df2 Hnd1 Hnd2 k Hk). unfold ind_of.
      repeat case_decide; naive_solver. }
  unfold merge_keys. rewrite sort_str_filter.
  rewrite (sort_str_perm_eq _ _ (filter_dedup_codes df1 df2 Hnd1)).
  apply map_ext_in. intros k Hk.
  apply list_elem_of_In in Hk.
  rewrite sort_str_Permutation, list_elem_of_filter in Hk. destruct Hk as [H2 H1].
  destruct (find_code_in k df1 Hnd1 H1) as (a & _ & Hc & _ & Ha).
  unfold row_for, qty_of, prod_of. rewrite Ha, (find_code_not_in k df2 H2). simpl.
  by rewrite merged_product_left, Hc.
Qed.

Lemma not_in_file1_rows :
  not_in_file1 (compare_dataframes df1 df2)
  = map (λ k, CanonRow k (py_strip (prod_of df2 k)) (qty_of df2 k))
        (sort_str (filter (λ k, k ∉ codes df1) (codes df2))).
Proof.
  simpl. rewrite (outer_merge_unique df1 df2 Hnd1 Hnd2), filter_map_comm, map_map.
  rewrite (filter_ext_in (λ k, m_ind (row_for df1 df2 k) = RightOnly) (λ k, k ∉ codes df1)).
  2:{ intros k Hk. apply elem_of_merge_keys in Hk.
      rewrite (row_for_ind df1 df2 Hnd1 Hnd2 k Hk). unfold ind_of.
      repeat case_decide; naive_solver. }
  rewrite <- merge_keys_comm. unfold merge_keys. rewrite sort_str_filter.
  rewrite (sort_str_perm_eq _ _ (filter_dedup_codes df2 df1 Hnd2)).
  apply map_ext_in. intros k Hk.
  apply list_elem_of_In in Hk.
  rewrite sort_str_Permutation, list_elem_of_filter in Hk. destruct Hk as [H1 H2].
  destruct (find_code_in k df2 Hnd2 H2) as (b & _ & Hc & _ & Hb).
  unfold row_for, qty_of, prod_of. rewrite Hb, (find_code_not_in k df1 H1). simpl.
  by rewrite merged_product_right, Hc.
Qed.
End OneSided.

Lemma Qeq_bool_minus_0 (a b : Q) : Qeq_bool (a - b) 0 = Qeq_bool a b.
Proof.
  destruct (Qeq_bool a b) eqn:E.
  - apply Qeq_bool_iff in E. apply Qeq_bool_iff. rewrite E. ring.
  - destruct (Qeq_bool (a - b) 0) eqn:E'; [|done]. apply Qeq_bool_iff in E'.
    assert (Hab : (a == b)%Q) by (transitivity ((a - b) + b)%Q; [ring | rewrite E'; ring]).
    apply Qeq_bool_iff in Hab. congruence.
Qed.

Lemma filter_nil_iff {A} (P : A → Prop) `{∀ x, Decision (P x)} (l : list A) :
  filter P l = [] ↔ ∀ x, x ∈ l → ¬ P x.
Proof.
  induction l as [|x l IH]; simpl.
  - split; [intros _ y Hy; by apply elem_of_nil in Hy | done].
  - rewrite filter_cons. case_decide as Hx.
    + split; [done|]. intros Hall. exfalso. apply (Hall x); [left | done].
    + rewrite IH. setoid_rewrite elem_of_cons. naive_solver.
Qed.

Lemma only_differences_keys (df1 df2 : list canon_row) :
  NoDup (codes df1) → NoDup (codes df2) →
  only_differences (compare_dataframes df1 df2)
  = filter (λ r, Qeq_bool (qty_of df1 (r_code r)) (qty_of df2 (r_code r)) = false)
      (comparison_complete (compare_dataframes df1 df2)).
Proof.
  intros Hnd1 Hnd2. simpl. apply filter_ext_in. intros r Hr.
  rewrite (outer_merge_unique df1 df2 Hnd1 Hnd2), map_map in Hr.
  apply list_elem_of_In, in_map_iff in Hr as (k & <- & _).
  destruct (cmp_row_for df1 df2 k) as (-> & _ & _ & -> & _).
  rewrite Qeq_bool_minus_0. destruct (Qeq_bool _ _); simpl; naive_solver.
Qed.

(** X1: with unique codes on each side, [comparison_complete] has one row
    per code of either file, in ascending code order; its quantities are
    the file's quantity for the code, 0 when the file lacks it; the
    difference is the first minus the second; the product is the first
    file's when non-empty, otherwise the second file's, stripped; and
    [only_differences] keeps the rows whose two quantities differ. *)
Theorem compare_dataframes_rows (df1 df2 : list canon_row) :
  NoDup (codes df1) → NoDup (codes df2) →
  let res := compare_dataframes df1 df2 in
  map r_code (comparison_complete res) = sort_str (dedup (codes df1 ++ codes df2)) ∧
  Forall (λ r, r_qty1 r = qty_of df1 (r_code r) ∧ r_qty2 r = qty_of df2 (r_code r) ∧
               r_diff r = (r_qty1 r - r_qty2 r)%Q ∧
               r_prod r = py_strip (if decide (prod_of df1 (r_code r) = [])
                                    then prod_of df2 (r_code r) else prod_of df1 (r_code r)))
         (comparison_complete res) ∧
  only_differences res
  = filter (λ r, Qeq_bool (qty_of df1 (r_code r)) (qty_of df2 (r_code r)) = false)
      (comparison_complete res).
Proof.
  intros Hnd1 Hnd2 res. split; [|split].
  - subst res. simpl. rewrite (outer_merge_unique df1 df2 Hnd1 Hnd2), !map_map.
    rewrite (map_ext _ (λ k, k)) by (intros k; apply (cmp_row_for df1 df2 k)).
    apply map_id.
  - subst res. simpl. rewrite (outer_merge_unique df1 df2 Hnd1 Hnd2), map_map.
    apply Forall_fmap, Forall_forall. intros k _. try unfold compose.
    destruct (cmp_row_for df1 df2 k) as (Hc & H1 & H2 & Hd & Hp).
    rewrite Hc. repeat split; congruence.
  - by apply only_differences_keys.
Qed.

(** X2: comparing a table with unique codes with itself finds no
    difference and no one-sided code: [only_differences], [not_in_file2]
    and [not_in_file1] are empty, and [comparison_complete] lists the
    table's codes in ascending order with equal quantities. *)
Theorem compare_dataframes_self (df : list canon_row) :
  NoDup (codes df) →
  let res := compare_dataframes df df in
  only_differences res = [] ∧ not_in_file2 res = [] ∧ not_in_file1 res = [] ∧
  map r_code (comparison_complete res) = sort_str (codes df) ∧
  Forall (λ r, r_qty1 r = r_qty2 r) (comparison_complete res).
Proof.
  intros Hnd res. subst res.
  assert (HK : merge_keys df df = sort_str (codes df)).
  { apply sort_str_perm_eq, NoDup_Permutation; [apply NoDup_dedup | done|].
    intros k. rewrite elem_of_dedup, elem_of_app. tauto. }
  assert (Hind : ∀ k, m_ind (row_for df df k) = Both)
    by (intros k; unfold row_for; by destruct (find_code k df)).
  simpl. rewrite (outer_merge_unique df df Hnd Hnd), HK.
  split; [|split; [|split; [|split]]].
  - apply filter_nil_iff. intros r Hr. apply list_elem_of_In, in_map_iff in Hr as (m & <- & Hm).
    apply in_map_iff in Hm as (k & <- & _).
    destruct (cmp_row_for df df k) as (_ & _ & _ & -> & _).
    assert (Hq : Qeq_bool (qty_of df k) (qty_of df k) = true) by (apply Qeq_bool_iff; reflexivity).
    rewrite Qeq_bool_minus_0, Hq. simpl. tauto.
  - rewrite filter_map_comm. rewrite (proj2 (filter_nil_iff _ _)); [done|]. intros k _. by rewrite Hind.
  - rewrite filter_map_comm. rewrite (proj2 (filter_nil_iff _ _)); [done|]. intros k _. by rewrite Hind.
  - rewrite !map_map. rewrite (map_ext _ (λ k, k)) by (intros k; apply (cmp_row_for df df k)).
    apply map_id.
  - rewrite map_map. apply Forall_fmap, Forall_forall. intros k _. try unfold compose.
    destruct (cmp_row_for df df k) as (_ & -> & -> & _). done.
Qed.

(** X3: with unique codes on each side, [not_in_file2] lists, in ascending
    code order, each code of the first file absent from the second, with
    the first file's stripped product and quantity; [not_in_file1] likewise
    for the second file. *)
Theorem compare_dataframes_one_sided (df1 df2 : list canon_row) :
  NoDup (codes df1) → NoDup (codes df2) →
  not_in_file2 (compare_dataframes df1 df2)
  = map (λ k, CanonRow k (py_strip (prod_of df1 k)) (qty_of df1 k))
        (sort_str (filter (λ k, k ∉ codes df2) (codes df1))) ∧
  not_in_file1 (compare_dataframes df1 df2)
  = map (λ k, CanonRow k (py_strip (prod_of df2 k)) (qty_of df2 k))
        (sort_str (filter (λ k, k ∉ codes df1) (codes df2))).
Proof.
  intros Hnd1 Hnd2. split; [apply not_in_file2_rows | apply not_in_file1_rows]; done.
Qed.

(** ** The output workbook *)

Lemma nil_via_length {A} (l : list A) : l = [] ↔ length l = 0%nat.
Proof. by rewrite length_zero_iff_nil. Qed.

Lemma sheet_message_cmp (l : list cmp_row) (msg : ustr) :
  (if (0 <? length l)%nat then cmp_frame_rows l else [[XStr msg]]) = [[XStr msg]] ↔ l = [].
Proof. destruct l; simpl; [done|]. split; [|done]. intros H. by injection H. Qed.

Lemma sheet_message_canon (l : list canon_row) (msg : ustr) :
  (if (0 <? length l)%nat then canon_frame_rows l else [[XStr msg]]) = [[XStr msg]] ↔ l = [].
Proof. destruct l; simpl; [done|]. split; [|done]. intros H. by injection H. Qed.

Lemma sort_filter_nil (P : ustr → Prop) `{∀ x, Decision (P x)} (l : list ustr) :
  sort_str (filter P l) = [] ↔ ∀ x, x ∈ l → ¬ P x.
Proof.
  rewrite nil_via_length, (Permutation_length (sort_str_Permutation _)), <- nil_via_length.
  rewrite filter_nil_iff. done.
Qed.

(** X4: for tables with unique codes, the sheet "Solo Diferencias" of the
    output holds only the message "No hay diferencias entre los archivos"
    exactly when every code of either file has the same quantity in both
    (a missing code counting 0); "No Coinciden Archivo1" holds only its
    message exactly when every code of the first file is in the second, and
    "No Coinciden Archivo2" likewise for the second file. *)
Theorem create_output_excel_messages (df1 df2 : list canon_row) :
  NoDup (codes df1) → NoDup (codes df2) →
  let wb := create_output_excel df1 df2 (compare_dataframes df1 df2) in
  (wb !! 2%nat = Some (u "Solo Diferencias", [[XStr (u "No hay diferencias entre los archivos")]])
   ↔ ∀ k, k ∈ codes df1 ∨ k ∈ codes df2 → (qty_of df1 k == qty_of df2 k)%Q) ∧
  (wb !! 3%nat = Some (u "No Coinciden Archivo1",
                       [[XStr (u "Todos los códigos del Archivo 1 están en el Archivo 2")]])
   ↔ ∀ k, k ∈ codes df1 → k ∈ codes df2) ∧
  (wb !! 4%nat = Some (u "No Coinciden Archivo2",
                       [[XStr (u "Todos los códigos del Archivo 2 están en el Archivo 1")]])
   ↔ ∀ k, k ∈ codes df2 → k ∈ codes df1).
Proof.
  intros Hnd1 Hnd2 wb. subst wb. unfold create_output_excel.
  cbn [lookup list_lookup].
  split; [|split].
  - transitivity (only_differences (compare_dataframes df1 df2) = []);
      [split; [intros H; injection H as H; by apply sheet_message_cmp in H
              | intros H; by rewrite (proj2 (sheet_message_cmp _ _) H)] |].
    rewrite only_differences_keys, filter_nil_iff by done.
    cbn [comparison_complete compare_dataframes].
    rewrite (outer_merge_unique df1 df2 Hnd1 Hnd2), map_map. split.
    + intros H k Hk. apply elem_of_merge_keys in Hk.
      specialize (H (cmp_of_merged (row_for df1 df2 k))).
      rewrite (proj1 (cmp_row_for df1 df2 k)) in H.
      apply Qeq_bool_iff. destruct (Qeq_bool _ _); [done|].
      exfalso. apply H; [|done]. apply list_elem_of_In, in_map_iff. exists k.
      split; [done|]. by apply list_elem_of_In.
    + intros H r Hr. apply list_elem_of_In, in_map_iff in Hr as (k & <- & Hk).
      apply list_elem_of_In, elem_of_merge_keys in Hk.
      rewrite (proj1 (cmp_row_for df1 df2 k)).
      apply H, Qeq_bool_iff in Hk. congruence.
  - transitivity (not_in_file2 (compare_dataframes df1 df2) = []);
      [split; [intros H; injection H as H; by apply sheet_message_canon in H
              | intros H; by rewrite (proj2 (sheet_message_canon _ _) H)] |].
    rewrite not_in_file2_rows by done.
    rewrite nil_via_length, length_map, <- nil_via_length, sort_filter_nil.
    split; intros H k Hk; [destruct (decide (k ∈ codes df2)); naive_solver | naive_solver].
  - transitivity (not_in_file1 (compare_dataframes df1 df2) = []);
      [split; [intros H; injection H as H; by apply sheet_message_canon in H
              | intros H; by rewrite (proj2 (sheet_message_canon _ _) H)] |].
    rewrite not_in_file1_rows by done.
    rewrite nil_via_length, length_map, <- nil_via_length, sort_filter_nil.
    split; intros H k Hk; [destruct (decide (k ∈ codes df1)); naive_solver | naive_solver].
Qed.

(** ** Letter case and digits in [clean_code_format] *)

Lemma N_below_forallb (f : N → bool) (m : nat) :
  forallb (λ n, f (N.of_nat n)) (seq 0 m) = true → ∀ c, (c < N.of_nat m)%N → f c = true.
Proof.
  intros H c Hc. apply forallb_forall with (x := N.to_nat c) in H; [by rewrite N2Nat.id in H|].
  apply in_seq. lia.
Qed.









(** ** Digit codes in [clean_code_format] *)

Lemma digit_char (c : uchar) :
  is_digit c = true →
  py_isspace c = false ∧ upper_char c = [c] ∧ lower_char c = c ∧ (48 ≤ c ≤ 57)%N.
Proof.
  intros H. assert (Hb : (48 ≤ c ≤ 57)%N).
  { unfold is_digit in H. apply andb_true_iff in H as [H1 H2].
    apply N.leb_le in H1, H2. lia. }
  split; [apply py_isspace_false; left; lia|]. split; [|split; [|done]].
  - apply (bool_decide_eq_true_1 (upper_char c = [c])).
    assert (Hf := N_below_forallb (λ c, negb (is_digit c) || bool_decide (upper_char c = [c])) 256).
    specialize (Hf ltac:(vm_compute; reflexivity) c ltac:(lia)).
    cbv beta in Hf. rewrite H in Hf. exact Hf.
  - unfold lower_char. rewrite (proj2 (N.leb_gt 65 c)) by lia.
    rewrite (proj2 (N.leb_gt 192 c)) by lia. done.
Qed.

(** Every character is an ASCII decimal digit. *)
Definition digits (d : ustr) : Prop := Forall (λ c, is_digit c = true) d.

Lemma parse_sign_digit (c : uchar) (r : ustr) :
  is_digit c = true → parse_sign (c :: r) = (false, c :: r).
Proof.
  intros H. unfold parse_sign. destruct c as [|p]; [done|].
  repeat (destruct p as [p|p|]; try reflexivity); discriminate H.
Qed.

Lemma span_digits_app (d r : ustr) :
  digits d → span_digits (d ++ r) = (d ++ (span_digits r).1, (span_digits r).2).
Proof.
  induction 1 as [|c d Hc Hd IH]; simpl; [by destruct (span_digits r)|].
  rewrite Hc, IH. done.
Qed.




Lemma lstrip_spaces (w t : ustr) :
  Forall (λ c, py_isspace c = true) w → lstrip (w ++ t) = lstrip t.
Proof. induction 1 as [|c w Hc Hw IH]; [done|]. simpl. by rewrite Hc. Qed.

Lemma py_strip_surround (w1 d w2 : ustr) :
  Forall (λ c, py_isspace c = true) w1 → Forall (λ c, py_isspace c = true) w2 →
  Forall (λ c, py_isspace c = false) d → py_strip (w1 ++ d ++ w2) = d.
Proof.
  intros H1 H2 Hd. unfold py_strip, rstrip. rewrite lstrip_spaces by done.
  destruct d as [|c d'].
  - simpl. rewrite <- (app_nil_r w2), lstrip_spaces by done. done.
  - assert (Hc : py_isspace c = false) by (by inversion Hd).
    simpl. rewrite Hc, app_comm_cons, reverse_app.
    rewrite lstrip_spaces by (by apply Forall_reverse).
    destruct (reverse (c :: d')) as [|x y] eqn:Hr; [by apply (f_equal length) in Hr; rewrite length_reverse in Hr|].
    assert (Hx : py_isspace x = false).
    { rewrite Forall_forall in Hd. apply Hd. rewrite <- elem_of_reverse, Hr. left. }
    simpl. rewrite Hx, <- Hr, reverse_involutive. done.
Qed.

Lemma py_upper_digits (d : ustr) : digits d → py_upper d = d.
Proof.
  induction 1 as [|c d Hc Hd IH]; [done|]. unfold py_upper in *. rewrite bind_cons, IH.
  by rewrite (proj1 (proj2 (digit_char c Hc))).
Qed.

Lemma digits_nonspace (d : ustr) : digits d → Forall (λ c, py_isspace c = false) d.
Proof. intros Hd. eapply Forall_impl; [exact Hd|]. intros c Hc. apply (digit_char c Hc). Qed.

Lemma strip_float_suffix_no_dot (s : ustr) : 46%N ∉ s → strip_float_suffix s = s.
Proof.
  intros Hs. unfold strip_float_suffix, ends_with.
  case_bool_decide as Hd; [|done]. exfalso. apply Hs.
  rewrite <- (take_drop (length s - length (u ".0")) s), Hd. apply elem_of_app. right. left.
Qed.

Lemma digits_no_char (d : ustr) (c : uchar) : digits d → is_digit c = false → c ∉ d.
Proof.
  intros Hd Hc Hin. unfold digits in Hd. rewrite Forall_forall in Hd.
  specialize (Hd c Hin). congruence.
Qed.

Lemma expand_scientific_digits (d : ustr) : digits d → expand_scientific d = d.
Proof.
  intros Hd. unfold expand_scientific, contains_char. rewrite py_upper_digits by done.
  rewrite bool_decide_false by (apply digits_no_char; [done|reflexivity]). done.
Qed.

Lemma u_dot0 : u ".0" = [46; 48]%N.
Proof. reflexivity. Qed.

(** X6: A code made of decimal digits, between whitespace, comes out of
    [clean_code_format] as the digits themselves, leading zeros kept; a
    trailing ".0" (as left by a float cell) is removed. *)
Theorem clean_code_format_digits (w1 d w2 : ustr) :
  digits d → Forall (λ c, py_isspace c = true) w1 → Forall (λ c, py_isspace c = true) w2 →
  clean_code_format (w1 ++ d ++ w2) = d ∧ clean_code_format (w1 ++ d ++ u ".0" ++ w2) = d.
Proof.
  intros Hd H1 H2. split; unfold clean_code_format.
  - rewrite py_strip_surround by auto using digits_nonspace.
    rewrite py_upper_digits by done.
    rewrite strip_float_suffix_no_dot by (apply digits_no_char; [done|reflexivity]).
    by apply expand_scientific_digits.
  - rewrite u_dot0, (app_assoc d), py_strip_surround; try done.
    2:{ apply Forall_app. split; [by apply digits_nonspace|by repeat constructor]. }
    unfold py_upper. rewrite bind_app. change (d ≫= upper_char) with (py_upper d).
    rewrite py_upper_digits by done. cbn [mbind list_bind upper_char].
    unfold strip_float_suffix, ends_with. rewrite u_dot0, length_app. cbn [length].
    rewrite Nat.add_sub, drop_app_length, bool_decide_true by done.
    rewrite take_app_length. by apply expand_scientific_digits.
Qed.


Lemma digit_head_ne (c : uchar) (x y : ustr) (h : uchar) :
  is_digit c = true → head y = Some h → is_digit h = false → c :: x ≠ y.
Proof. intros Hc Hy Hh <-. simpl in Hy. congruence. Qed.


Lemma span_digits_nondigit (c : uchar) (r : ustr) :
  is_digit c = false → span_digits (c :: r) = ([], c :: r).
Proof. intros Hc. simpl. by rewrite Hc. Qed.

Lemma py_lower_digit_cons (c : uchar) (x : ustr) :
  is_digit c = true → py_lower (c :: x) = c :: py_lower x.
Proof. intros Hc. unfold py_lower. cbn [map]. f_equal. apply (digit_char c Hc). Qed.

Lemma span_digits_all (d : ustr) : digits d → span_digits d = (d, []).
Proof. intros Hd. rewrite <- (app_nil_r d) at 1. rewrite span_digits_app by done. by rewrite app_nil_r. Qed.




Lemma clean_code_format_digits_witness :
  clean_code_format ([32%N] ++ u "007" ++ [9%N]) = u "007" ∧
  clean_code_format ([32%N] ++ u "007" ++ u ".0" ++ [9%N]) = u "007".
Proof.
  apply (clean_code_format_digits [32%N] (u "007") [9%N]);
    vm_compute; repeat constructor.
Defined.


(** ** Digit quantities in [clean_quantity] *)

Lemma digits_plain (d : ustr) : digits d → plain_block d.
Proof.
  intros Hd. eapply Forall_impl; [exact Hd|]. intros c Hc.
  destruct (digit_char c Hc) as (Hs & _ & _ & Hb). split; [|split]; [lia|lia|done].
Qed.

Lemma strip_underscores_no95 (prev : option uchar) (s : ustr) :
  prev ≠ Some 95%N → 95%N ∉ s → strip_underscores prev s = Some s.
Proof.
  revert prev. induction s as [|c s IH]; intros prev Hp Hs; simpl.
  - by rewrite decide_False.
  - rewrite not_elem_of_cons in Hs. destruct Hs as [Hc Hs].
    rewrite (proj2 (N.eqb_neq c 95)) by done. rewrite bool_decide_false by done. simpl.
    rewrite IH by congruence. done.
Qed.

Lemma py_float_plain (s : ustr) :
  95%N ∉ s → Forall (λ c, py_isspace c = false) s → py_float s = parse_float s.
Proof.
  intros H95 Hs. unfold py_float. rewrite strip_underscores_no95 by done.
  by rewrite py_strip_id.
Qed.

Lemma py_lower_cons_fixed (c : uchar) (x : ustr) :
  lower_char c = c → py_lower (c :: x) = c :: py_lower x.
Proof. intros Hc. unfold py_lower. cbn [map]. by rewrite Hc. Qed.

Lemma parse_float_digits (d : ustr) :
  digits d → d ≠ [] → parse_float d = Some (PFin (inject_Z (digits_value d))).
Proof.
  intros Hd Hd0. destruct d as [|c d']; [done|].
  assert (Hc : is_digit c = true) by (by inversion Hd).
  unfold parse_float. rewrite parse_sign_digit by done.
  rewrite py_lower_digit_cons by done.
  rewrite decide_False.
  2:{ intros [H|H]; revert H; (eapply digit_head_ne; [done|reflexivity|reflexivity]). }
  rewrite decide_False.
  2:{ eapply digit_head_ne; [done|reflexivity|reflexivity]. }
  rewrite span_digits_all by done. cbv beta iota. rewrite app_nil_r.
  rewrite decide_False by done. unfold dec_value. cbn. by rewrite Z.mul_1_r.
Qed.

Lemma parse_float_point (a f : ustr) :
  digits a → digits f → a ++ f ≠ [] →
  parse_float (a ++ 46%N :: f)
  = Some (PFin (dec_value false (digits_value (a ++ f)) (- Z.of_nat (length f)))).
Proof.
  intros Ha Hf Haf.
  assert (Hhead : parse_sign (a ++ 46%N :: f) = (false, a ++ 46%N :: f) ∧
                  ∃ c x, a ++ 46%N :: f = c :: x ∧ lower_char c = c ∧
                         ∀ h, (is_digit h = false ∧ h ≠ 46%N) → c ≠ h).
  { destruct a as [|c a'].
    - split; [reflexivity|]. exists 46%N, f. split; [done|]. split; [reflexivity|].
      intros h [_ ?]. done.
    - assert (Hc : is_digit c = true) by (by inversion Ha).
      split; [by apply parse_sign_digit|]. exists c, (a' ++ 46%N :: f).
      split; [done|]. split; [apply (digit_char c Hc)|]. intros h [Hh _] ->. congruence. }
  destruct Hhead as (Hps & c & x & Hcx & Hlc & Hne).
  unfold parse_float. rewrite Hps.
  rewrite decide_False.
  2:{ rewrite Hcx, py_lower_cons_fixed by done.
      intros [H|H]; apply (f_equal head) in H; vm_compute in H; injection H as H;
        revert H; apply Hne; split; reflexivity || discriminate. }
  rewrite decide_False.
  2:{ rewrite Hcx, py_lower_cons_fixed by done.
      intros H; apply (f_equal head) in H; vm_compute in H; injection H as H;
        revert H; apply Hne; split; reflexivity || discriminate. }
  rewrite span_digits_app, span_digits_nondigit by done. cbn [fst snd]. cbv beta iota.
  rewrite span_digits_all by done. cbv beta iota. rewrite app_nil_r.
  rewrite decide_False by done. done.
Qed.

Lemma plain_block_app (a b : ustr) : plain_block a → plain_block b → plain_block (a ++ b).
Proof. intros Ha Hb. by apply Forall_app. Qed.

Lemma count_char_pos (c : uchar) (s : ustr) : count_char c s ≠ 0 → c ∈ s.
Proof. intros H. destruct (decide (c ∈ s)) as [|Hn]; [done|]. by rewrite count_char_absent in H. Qed.

Lemma quantity_text_digits (d : ustr) :
  digits d → d ≠ [] → quantity_text (Some d) = Some d.
Proof.
  intros Hd Hd0. assert (Hp := digits_plain d Hd).
  unfold quantity_text. rewrite py_strip_id by (by apply plain_block_nospace).
  rewrite decide_False.
  2:{ intros [?|Hn]; [done|]. rewrite py_upper_digits in Hn by done.
      destruct d as [|c d']; [done|]. revert Hn. eapply digit_head_ne; [by inversion Hd|reflexivity|reflexivity]. }
  rewrite replace_char_absent.
  2:{ intros Hin. apply plain_block_nospace in Hp. rewrite Forall_forall in Hp.
      specialize (Hp _ Hin). discriminate. }
  rewrite !count_char_absent by (apply plain_block_absent; auto).
  rewrite !decide_False by lia. done.
Qed.

Lemma quantity_text_point (a f : ustr) :
  plain_block a → plain_block f →
  quantity_text (Some (a ++ 46%N :: f)) = Some (a ++ 46%N :: f).
Proof.
  intros Ha Hf. set (s := a ++ 46%N :: f).
  assert (Hssp : Forall (λ c, py_isspace c = false) s).
  { apply Forall_app. split; [by apply plain_block_nospace |].
    constructor; [done | by apply plain_block_nospace]. }
  assert (Hsp32 : 32%N ∉ s).
  { intros Hin. rewrite Forall_forall in Hssp. specialize (Hssp _ Hin). discriminate. }
  unfold quantity_text. rewrite py_strip_id by done.
  rewrite decide_False.
  2:{ intros [Hn | Hn]; [by destruct a |].
      apply (sep_not_in_NAN 46); [auto |]. rewrite <- Hn.
      apply elem_of_py_upper_sep; [auto |]. apply elem_of_app; right; left. }
  rewrite (replace_char_absent 32 [] s) by done.
  assert (Hcom : count_char 44 s = 0).
  { apply count_char_absent. unfold s. rewrite elem_of_app, elem_of_cons.
    pose proof (plain_block_absent a 44) as H1. pose proof (plain_block_absent f 44) as H2.
    intuition discriminate. }
  assert (Hdot : count_char 46 s = 1).
  { unfold s. rewrite count_char_app, count_char_cons_hit.
    rewrite !count_char_absent by (apply plain_block_absent; auto). done. }
  rewrite Hdot, Hcom. rewrite decide_True by lia. done.
Qed.

Lemma quantity_text_thousands_comma (a f : ustr) :
  plain_block a → plain_block f → 3 ≤ length f →
  quantity_text (Some (a ++ 44%N :: f)) = Some (a ++ f).
Proof.
  intros Ha Hf Hlen. set (s := a ++ 44%N :: f).
  assert (Hssp : Forall (λ c, py_isspace c = false) s).
  { apply Forall_app. split; [by apply plain_block_nospace |].
    constructor; [done | by apply plain_block_nospace]. }
  assert (Hsp32 : 32%N ∉ s).
  { intros Hin. rewrite Forall_forall in Hssp. specialize (Hssp _ Hin). discriminate. }
  unfold quantity_text. rewrite py_strip_id by done.
  rewrite decide_False.
  2:{ intros [Hn | Hn]; [by destruct a |].
      apply (sep_not_in_NAN 44); [auto |]. rewrite <- Hn.
      apply elem_of_py_upper_sep; [auto |]. apply elem_of_app; right; left. }
  rewrite (replace_char_absent 32 [] s) by done.
  assert (Hdot : count_char 46 s = 0).
  { apply count_char_absent. unfold s. rewrite elem_of_app, elem_of_cons.
    pose proof (plain_block_absent a 46) as H1. pose proof (plain_block_absent f 46) as H2.
    intuition discriminate. }
  assert (Hcom : count_char 44 s = 1).
  { unfold s. rewrite count_char_app, count_char_cons_hit.
    rewrite !count_char_absent by (apply plain_block_absent; auto). done. }
  rewrite Hdot, Hcom. rewrite decide_False by lia. rewrite decide_True by lia.
  unfold s at 2. rewrite rfind_last by (apply plain_block_absent; auto).
  unfold s at 1. rewrite length_app. simpl.
  destruct (Z.leb_spec (Z.of_nat (length a + S (length f)) - Z.of_nat (length a) - 1) 2); [lia |].
  unfold s. rewrite replace_char_app, replace_char_cons_hit.
  rewrite !replace_char_absent by (apply plain_block_absent; auto). done.
Qed.

Lemma quantity_text_grouped (t : uchar) (bs : list ustr) :
  (t = 44 ∨ t = 46)%N → 3 ≤ length bs → Forall plain_block bs →
  quantity_text (Some (join_with t bs)) = Some (concat bs).
Proof.
  intros Ht Hlen Hbs.
  assert (Habs : ∀ c, (c = 44 ∨ c = 46)%N → Forall (λ b, c ∉ b) bs).
  { intros c Hc. eapply Forall_impl; [exact Hbs |]. intros b Hb. by apply plain_block_absent. }
  set (J := join_with t bs).
  assert (HJsp : Forall (λ c, py_isspace c = false) J).
  { apply join_with_Forall; [by destruct Ht as [-> | ->] |].
    eapply Forall_impl; [exact Hbs |]. intros b. apply plain_block_nospace. }
  assert (Hsp32 : 32%N ∉ J).
  { intros Hin. rewrite Forall_forall in HJsp. specialize (HJsp _ Hin). discriminate. }
  assert (Hct : count_char t J = pred (length bs)) by (apply join_with_count; auto).
  assert (HtJ : t ∈ J) by (apply count_char_pos; lia).
  unfold quantity_text. rewrite py_strip_id by done.
  rewrite decide_False.
  2:{ intros [Hn | Hn]; [rewrite Hn in HtJ; by apply not_elem_of_nil in HtJ |].
      apply (sep_not_in_NAN t Ht). rewrite <- Hn. by apply elem_of_py_upper_sep. }
  rewrite (replace_char_absent 32 [] J) by done.
  destruct Ht as [-> | ->].
  - assert (Hdot : count_char 46 J = 0)
      by (apply count_char_absent, join_with_absent; [done|apply Habs; auto]).
    rewrite Hct, Hdot. rewrite !decide_False by lia. rewrite decide_True by lia.
    f_equal. by apply join_with_replace, Habs; left.
  - assert (Hcom : count_char 44 J = 0)
      by (apply count_char_absent, join_with_absent; [done|apply Habs; auto]).
    rewrite Hct, Hcom. rewrite !decide_False by lia. rewrite decide_True by lia.
    f_equal. by apply join_with_replace, Habs; right.
Qed.

Lemma digits_app (a b : ustr) : digits a → digits b → digits (a ++ b).
Proof. intros Ha Hb. by apply Forall_app. Qed.

(** X8: quantities written with ASCII digits only are read as whole
    numbers; with one '.' the digits after it are decimals; with one ','
    followed by at least three digits the comma is a thousands separator
    and is dropped. *)
Theorem clean_quantity_digit_text (a f : ustr) :
  digits a → digits f →
  (a ≠ [] → clean_quantity (Some a) = PFin (inject_Z (digits_value a))) ∧
  (a ++ f ≠ [] → clean_quantity (Some (a ++ 46%N :: f))
                 = PFin (dec_value false (digits_value (a ++ f)) (- Z.of_nat (length f)))) ∧
  (3 ≤ length f → clean_quantity (Some (a ++ 44%N :: f)) = PFin (inject_Z (digits_value (a ++ f)))).
Proof.
  intros Ha Hf. split; [|split].
  - intros Ha0. unfold clean_quantity. rewrite quantity_text_digits by done.
    unfold float_or_zero. rewrite py_float_plain.
    + by rewrite parse_float_digits.
    + by apply digits_no_char.
    + by apply digits_nonspace.
  - intros Haf. unfold clean_quantity.
    rewrite quantity_text_point by (by apply digits_plain).
    unfold float_or_zero. rewrite py_float_plain.
    + by rewrite parse_float_point.
    + rewrite elem_of_app, elem_of_cons. intros [H|[H|H]]; [| discriminate |];
        revert H; by apply digits_no_char.
    + apply Forall_app. split; [by apply digits_nonspace|]. constructor; [done|by apply digits_nonspace].
  - intros Hlen. assert (Hd := digits_app a f Ha Hf). unfold clean_quantity.
    rewrite quantity_text_thousands_comma by (by apply digits_plain || lia).
    unfold float_or_zero. rewrite py_float_plain.
    + rewrite parse_float_digits by (done || (intros H; apply (f_equal length) in H;
                                               rewrite length_app in H; simpl in H; lia)).
      done.
    + by apply digits_no_char.
    + by apply digits_nonspace.
Qed.

(** X9: digit groups joined by two or more of the same separator, all
    commas or all dots, are read as one whole number: every separator is
    dropped as a thousands separator ("1.234.567" is 1234567). *)
Theorem clean_quantity_grouped (t : uchar) (bs : list ustr) :
  (t = 44 ∨ t = 46)%N → 3 ≤ length bs → Forall digits bs → concat bs ≠ [] →
  clean_quantity (Some (join_with t bs)) = PFin (inject_Z (digits_value (concat bs))).
Proof.
  intros Ht Hlen Hbs Hne.
  assert (Hd : digits (concat bs)) by (by apply Forall_concat).
  unfold clean_quantity. rewrite quantity_text_grouped; [|done|done|].
  2:{ eapply Forall_impl; [exact Hbs|]. apply digits_plain. }
  unfold float_or_zero. rewrite py_float_plain.
  - by rewrite parse_float_digits.
  - by apply digits_no_char.
  - by apply digits_nonspace.
Qed.

Lemma clean_quantity_digit_text_witness :
  clean_quantity (Some (u "0012")) = PFin (inject_Z 12) ∧
  clean_quantity (Some (u "1.234")) = PFin (dec_value false 1234 (-3)) ∧
  clean_quantity (Some (u "1,234")) = PFin (inject_Z 1234).
Proof.
  destruct (clean_quantity_digit_text (u "1") (u "234")) as (_ & H2 & H3);
    [vm_compute; repeat constructor|vm_compute; repeat constructor|].
  destruct (clean_quantity_digit_text (u "0012") []) as (H1 & _ & _);
    [vm_compute; repeat constructor|constructor|].
  split; [exact (H1 ltac:(discriminate))|].
  split; [exact (H2 ltac:(discriminate))|exact (H3 ltac:(simpl; lia))].
Defined.

Lemma clean_quantity_grouped_witness :
  clean_quantity (Some (u "1.234.567")) = PFin (inject_Z 1234567).
Proof.
  exact (clean_quantity_grouped 46%N [u "1"; u "234"; u "567"] ltac:(right; reflexivity)
           ltac:(simpl; lia) ltac:(vm_compute; repeat constructor) ltac:(discriminate)).
Defined.

(** ** Rows kept by [clean_dataframe] *)

Lemma ends_in_space_rstrip (s : ustr) : ends_in_space (rstrip s) = false.
Proof.
  unfold ends_in_space, rstrip. rewrite last_reverse.
  pose proof (head_ok_lstrip (reverse s)) as H.
  destruct (lstrip (reverse s)); [done|]. exact H.
Qed.

Lemma py_strip_idem (s : ustr) : py_strip (py_strip s) = py_strip s.
Proof.
  unfold py_strip at 1. rewrite lstrip_head_ok by apply head_ok_py_strip.
  apply rstrip_id. unfold py_strip. apply ends_in_space_rstrip.
Qed.

Lemma nan_to_empty_spec (s : ustr) :
  py_strip (nan_to_empty (py_strip s)) = nan_to_empty (py_strip s) ∧
  nan_to_empty (py_strip s) ∉ [u "nan"; u "NaN"; u "NAN"].
Proof.
  unfold nan_to_empty. case_decide as Hn.
  - split; [reflexivity|]. refine (bool_decide_unpack _ _). vm_compute. reflexivity.
  - split; [apply py_strip_idem|]. rewrite !elem_of_cons, elem_of_nil. tauto.
Qed.

(** X10: when [clean_dataframe] succeeds it returns at most as many rows as
    the sheet has; every product is stripped of surrounding whitespace and
    is never "nan", "NaN" or "NAN" (those become ""); without a product
    column every product is "". *)
Theorem clean_dataframe_output (f : frame) (codigo_col : ustr) (producto_col : option ustr)
    (cantidad_col : ustr) (out : list (cleaned_row pyfloat)) :
  clean_dataframe f codigo_col producto_col cantidad_col = Some out →
  length out ≤ length (rows f) ∧
  Forall (λ r, py_strip (cl_prod r) = cl_prod r ∧ cl_prod r ∉ [u "nan"; u "NaN"; u "NAN"]) out ∧
  (producto_col = None → Forall (λ r, cl_prod r = []) out).
Proof.
  unfold clean_dataframe. intros H. repeat case_match; simplify_eq; repeat split.
  all: try (etrans; [apply length_filter|]; etrans; [apply length_filter|];
            rewrite length_map; apply length_filter).
  all: try (intros Hp; discriminate Hp).
  all: try intros _.
  all: apply Forall_forall; intros x Hx;
    apply list_elem_of_filter in Hx as [_ Hx]; apply list_elem_of_filter in Hx as [_ Hx];
    apply list_elem_of_In, in_map_iff in Hx as (r & <- & _); cbn [cl_prod].
  all: first [ apply nan_to_empty_spec | reflexivity
             | split; [reflexivity|]; refine (bool_decide_unpack _ _); vm_compute; reflexivity ].
Qed.

Lemma clean_code_format_blank (s : ustr) : py_strip s = [] → clean_code_format s = [].
Proof. intros Hs. unfold clean_code_format. rewrite Hs. reflexivity. Qed.

(** X11: a row whose code cell is missing, blank, or repeats the code
    column's header (ignoring case and surrounding whitespace) contributes
    nothing: removing it from the sheet leaves the result of
    [clean_dataframe] unchanged. *)
Theorem clean_dataframe_ignored_row (cols : list ustr) (rs1 rs2 : list (list cell))
    (r : list cell) (codigo_col : ustr) (producto_col : option ustr) (cantidad_col : ustr)
    (ic : nat) :
  column_index (Frame cols (rs1 ++ rs2)) codigo_col = Some ic →
  cell_at r ic = None ∨ py_strip (cell_str (cell_at r ic)) = [] ∨
  py_strip (py_lower (cell_str (cell_at r ic))) = py_strip (py_lower codigo_col) →
  clean_dataframe (Frame cols (rs1 ++ r :: rs2)) codigo_col producto_col cantidad_col
  = clean_dataframe (Frame cols (rs1 ++ rs2)) codigo_col producto_col cantidad_col.
Proof.
  intros Hic Hr. unfold clean_dataframe.
  change (column_index (Frame cols (rs1 ++ r :: rs2)))
    with (column_index (Frame cols (rs1 ++ rs2))).
  rewrite Hic. destruct (column_index _ cantidad_col) as [iq|]; [|done].
  destruct (match producto_col with Some p => _ | None => _ end) as [ip|]; [|done].
  cbn [rows]. f_equal. rewrite !filter_app, filter_cons. case_decide as Hh; [|done].
  rewrite !map_app, !filter_app. cbn [map]. rewrite !filter_cons. cbn [cl_code].
  destruct Hr as [Hn | [Hs | Hh']]; [| | done].
  - rewrite Hn. cbn [cell_str].
    replace (clean_code_format (u "nan")) with (u "NAN") by (vm_compute; reflexivity).
    rewrite decide_True by (vm_compute; discriminate).
    rewrite filter_cons, decide_False by (vm_compute; tauto). done.
  - rewrite clean_code_format_blank by done. rewrite decide_False by tauto. done.
Qed.

Lemma clean_dataframe_output_witness :
  clean_dataframe ex_frame (u "Código") (Some (u "Producto")) (u "Cantidad")
  = Some [CleanedRow (u "806") (u "Tornillo") (PFin 3); CleanedRow (u "806") [] (PFin 7);
          CleanedRow (u "12") [] (PFin (12345 # 10))] ∧
  let out := [CleanedRow (u "806") (u "Tornillo") (PFin 3); CleanedRow (u "806") [] (PFin 7);
              CleanedRow (u "12") [] (PFin (12345 # 10))] in
  length out ≤ length (rows ex_frame) ∧
  Forall (λ r, py_strip (cl_prod r) = cl_prod r ∧ cl_prod r ∉ [u "nan"; u "NaN"; u "NAN"]) out ∧
  (Some (u "Producto") = None → Forall (λ r, cl_prod r = []) out).
Proof.
  assert (H : clean_dataframe ex_frame (u "Código") (Some (u "Producto")) (u "Cantidad")
    = Some [CleanedRow (u "806") (u "Tornillo") (PFin 3); CleanedRow (u "806") [] (PFin 7);
            CleanedRow (u "12") [] (PFin (12345 # 10))]) by (vm_compute; reflexivity).
  split; [exact H |]. exact (clean_dataframe_output _ _ _ _ _ H).
Defined.

Lemma clean_dataframe_ignored_row_witness :
  clean_dataframe ex_frame (u "Código") (Some (u "Producto")) (u "Cantidad")
  = clean_dataframe (Frame (columns ex_frame) (take 1 (rows ex_frame) ++ drop 2 (rows ex_frame)))
      (u "Código") (Some (u "Producto")) (u "Cantidad").
Proof.
  exact (clean_dataframe_ignored_row (columns ex_frame) (take 1 (rows ex_frame))
           (drop 2 (rows ex_frame)) [Some (u "código "); Some (u "Producto"); Some (u "Cantidad")]
           (u "Código") (Some (u "Producto")) (u "Cantidad") 0
           ltac:(vm_compute; reflexivity) ltac:(right; right; vm_compute; reflexivity)).
Defined.

(** ** Labels and rows of [read_excel_file] *)

(** [labels.count(l)] *)
Definition count_label (l : ustr) (labels : list ustr) : nat := length (filter (λ x, x = l) labels).

Lemma columna_not_role (i : nat) : columna i ≠ u "Código" ∧ columna i ≠ u "Cantidad".
Proof.
  split; intros H; apply (f_equal (take 2)) in H; unfold columna in H;
    rewrite take_app_le in H by (vm_compute; lia); vm_compute in H; discriminate.
Qed.

Lemma count_label_cons (l x : ustr) (L : list ustr) :
  count_label l (x :: L) = ((if decide (x = l) then 1 else 0) + count_label l L)%nat.
Proof. unfold count_label. rewrite filter_cons. by case_decide. Qed.

Lemma assign_positional_step (col : list cell) (rest : list (list cell)) (i : nat) (ca qa : bool) :
  ∃ lab ca' qa',
    assign_positional i (col :: rest) ca qa = lab :: assign_positional (S i) rest ca' qa' ∧
    ((lab = u "Código" ∧ ca = false ∧ ca' = true ∧ qa' = qa) ∨
     (lab = u "Cantidad" ∧ ca = true ∧ qa = false ∧ ca' = true ∧ qa' = true) ∨
     (lab ≠ u "Código" ∧ lab ≠ u "Cantidad" ∧ ca' = ca ∧ qa' = qa)) ∧
    (omap id col = [] → lab = columna i).
Proof.
  cbn [assign_positional]. case_decide as He.
  { eexists _, _, _. split; [reflexivity|]. split; [|done].
    right; right. pose proof (columna_not_role i). tauto. }
  destruct (negb ca && _ && _) eqn:E1.
  { eexists _, _, _. split; [reflexivity|]. split; [|done]. left.
    apply andb_true_iff in E1 as [E1 _]. apply andb_true_iff in E1 as [E1 _].
    apply negb_true_iff in E1. tauto. }
  destruct (negb qa && _ && ca) eqn:E2.
  { eexists _, _, _. split; [reflexivity|]. split; [|done]. right; left.
    apply andb_true_iff in E2 as [E2 E3]. apply andb_true_iff in E2 as [E2 _].
    apply negb_true_iff in E2. tauto. }
  destruct (bool_decide (10 * _ < _)).
  { eexists _, _, _. split; [reflexivity|]. split; [|done]. right; right.
    split; [|split; [|tauto]]; intros H; vm_compute in H; discriminate. }
  eexists _, _, _. split; [reflexivity|]. split; [|done].
  right; right. pose proof (columna_not_role i). tauto.
Qed.

Lemma assign_positional_inv (cols : list (list cell)) (i : nat) (ca qa : bool) :
  let L := assign_positional i cols ca qa in
  length L = length cols ∧
  count_label (u "Código") L ≤ (if ca then 0 else 1) ∧
  count_label (u "Cantidad") L ≤ (if qa then 0 else 1) ∧
  (∀ j, L !! j = Some (u "Cantidad") → ca = true ∨ ∃ k, k < j ∧ L !! k = Some (u "Código")) ∧
  (∀ j col, cols !! j = Some col → omap id col = [] → L !! j = Some (columna (i + j))).
Proof.
  revert i ca qa. induction cols as [|col rest IH]; intros i ca qa L.
  - subst L. simpl. unfold count_label. simpl.
    split; [done|]. split; [lia|]. split; [lia|]. split; [done|]. done.
  - subst L. destruct (assign_positional_step col rest i ca qa)
      as (lab & ca' & qa' & -> & Hcase & Hemp).
    destruct (IH (S i) ca' qa') as (Hlen & Hc & Hq & Hcq & Hcol).
    set (L' := assign_positional (S i) rest ca' qa') in *.
    split; [simpl; lia|]. rewrite !count_label_cons.
    split; [|split; [|split]].
    + destruct Hcase as [(-> & -> & -> & ->)|[(-> & -> & -> & -> & ->)|(Hl1 & Hl2 & -> & ->)]].
      * rewrite decide_True by done. lia.
      * rewrite decide_False by (vm_compute; discriminate). lia.
      * rewrite decide_False by done. lia.
    + destruct Hcase as [(-> & -> & -> & ->)|[(-> & -> & -> & -> & ->)|(Hl1 & Hl2 & -> & ->)]].
      * rewrite decide_False by (vm_compute; discriminate). lia.
      * rewrite decide_True by done. lia.
      * rewrite decide_False by done. lia.
    + intros [|j] Hj.
      * simpl in Hj. injection Hj as ->.
        destruct Hcase as [(Hx & _)|[(_ & -> & _)|(_ & Hx & _)]]; [|by left|done].
        vm_compute in Hx. discriminate.
      * simpl in Hj. destruct (Hcq j Hj) as [->|(k & Hk & Hk')].
        -- destruct Hcase as [(-> & _)|[(_ & -> & _)|(_ & _ & <- & _)]]; [|by left|by left].
           right. exists 0. split; [lia|done].
        -- right. exists (S k). split; [lia|done].
    + intros [|j] col0 Hj Hcol0.
      * simpl in Hj. injection Hj as <-. rewrite Nat.add_0_r. simpl. f_equal. by apply Hemp.
      * simpl in Hj. simpl. rewrite (Hcol j col0 Hj Hcol0). do 2 f_equal. lia.
Qed.

Lemma lookup_map_std {A B} (f : A → B) (l : list A) (j : nat) : map f l !! j = f <$> l !! j.
Proof. revert j. induction l as [|x l IH]; intros [|j]; simpl; auto. Qed.

Lemma omap_column_empty (sh : sheet) (j : nat) :
  Forall (λ r, cell_at r j = None) sh → omap id (column_cells sh j) = [].
Proof. unfold column_cells. induction 1 as [|r sh Hr _ IH]; [done|]. simpl. by rewrite Hr. Qed.

Lemma length_assign_positional_columns (sh : sheet) :
  length (columns (assign_positional_columns sh)) = ncols sh.
Proof.
  unfold assign_positional_columns. cbn [columns].
  rewrite (proj1 (assign_positional_inv _ 0 false false)). by rewrite length_map, length_seq.
Qed.

(** X12: when no header row is found, the positional labels: one per column
    of the sheet, at most one "Código" and at most one "Cantidad", a
    "Cantidad" column always to the right of the "Código" column, and a
    column with no value at index [j] labelled "Columna_j". *)
Theorem assign_positional_columns_labels (sh : sheet) :
  let L := columns (assign_positional_columns sh) in
  length L = ncols sh ∧
  count_label (u "Código") L ≤ 1 ∧ count_label (u "Cantidad") L ≤ 1 ∧
  (∀ j, L !! j = Some (u "Cantidad") → ∃ k, k < j ∧ L !! k = Some (u "Código")) ∧
  (∀ j, j < ncols sh → Forall (λ r, cell_at r j = None) sh → L !! j = Some (columna j)).
Proof.
  intros L. subst L. unfold assign_positional_columns. cbn [columns].
  destruct (assign_positional_inv (map (column_cells sh) (seq 0 (ncols sh))) 0 false false)
    as (Hlen & Hc & Hq & Hcq & Hcol).
  split; [apply length_assign_positional_columns|].
  split; [done|]. split; [done|]. split.
  - intros j Hj. destruct (Hcq j Hj) as [H|H]; [discriminate|done].
  - intros j Hj Hemp. apply (Hcol j (column_cells sh j)); [|by apply omap_column_empty].
    rewrite lookup_map_std, lookup_seq_lt by done. done.
Qed.





(* ------------------------------------------------------------------ *)
(** ** File names and previews in [main.py] *)

Lemma lower_char_dot (c : uchar) : lower_char c = 46%N → c = 46%N.
Proof.
  unfold lower_char. destruct (_ || _) eqn:E; [|done].
  intros H. apply orb_true_iff in E. rewrite !andb_true_iff, !N.leb_le in E. lia.
Qed.

Lemma ext_shape (ext : ustr) :
  py_lower ext ∈ [u ".xls"; u ".xlsx"] → ∃ y, ext = 46%N :: y ∧ (46%N ∉ y) ∧ (47%N ∉ y).
Proof.
  intros H. rewrite !elem_of_cons, elem_of_nil in H.
  assert (Hx : ∀ y t, map lower_char y = t → 46%N ∉ t → 47%N ∉ t → (46%N ∉ y) ∧ (47%N ∉ y)).
  { intros y t Hy H46 H47. subst t. split; intros Hin; apply list_elem_of_In in Hin;
      apply (in_map lower_char) in Hin; apply list_elem_of_In in Hin; [apply H46|apply H47]; exact Hin. }
  destruct ext as [|c y]; [destruct H as [H|[H|[]]]; discriminate H|].
  unfold py_lower in H. cbn [map] in H.
  destruct H as [H|[H|[]]]; injection H as Hc Hy; apply lower_char_dot in Hc; subst c;
    exists y; split; [done| |done|]; apply (Hx y _ Hy); vm_compute; intros Hin;
    repeat (apply elem_of_cons in Hin as [Hin|Hin]; [discriminate|]); by apply elem_of_nil in Hin.
Qed.

Lemma rfind_cases (c : uchar) (s : ustr) :
  ((c ∉ s) ∧ rfind c s = (-1)%Z) ∨
  ∃ x y, s = x ++ c :: y ∧ (c ∉ y) ∧ rfind c s = Z.of_nat (length x).
Proof.
  destruct (decide (c ∈ s)) as [Hin|Hn].
  - right. destruct (list_elem_of_split_r s c Hin) as (x & y & -> & Hy).
    exists x, y. split; [done|]. split; [done|]. by apply rfind_last.
  - left. split; [done|]. unfold rfind. by apply rfind_from_absent.
Qed.

Lemma no_ext_not_valid : py_lower [] ∉ [u ".xls"; u ".xlsx"].
Proof. refine (bool_decide_unpack _ _). vm_compute. reflexivity. Qed.

(** X14: The file-type check of [preview_file] and [compare_files] accepts a
    file name exactly when it is a directory part (empty or ending in '/'),
    then a base name with no '/' and some character other than '.', then
    an extension that lower-cases to ".xls" or ".xlsx". *)
Theorem valid_extension_iff (fn : ustr) :
  valid_extension fn = true ↔
  ∃ pre stem ext, fn = pre ++ stem ++ ext ∧ (pre = [] ∨ ∃ d, pre = d ++ [47%N]) ∧
    (47%N ∉ stem) ∧ (∃ c, c ∈ stem ∧ c ≠ 46%N) ∧ py_lower ext ∈ [u ".xls"; u ".xlsx"].
Proof.
  unfold valid_extension, splitext. split.
  - intros Hv.
    destruct (rfind_cases 46 fn) as [[H46 Hd] | (x & y & -> & Hy & Hd)].
    { exfalso. rewrite Hd in Hv.
      destruct (rfind_cases 47 fn) as [[_ Hs] | (a & b & _ & _ & Hs)]; rewrite Hs in Hv;
        [destruct (Z.ltb_spec (-1) (-1)); [lia|]|destruct (Z.ltb_spec (Z.of_nat (length a)) (-1)); [lia|]];
        apply bool_decide_eq_true in Hv; by apply no_ext_not_valid. }
    rewrite Hd in Hv.
    destruct (rfind_cases 47 (x ++ 46%N :: y)) as [[H47 Hs] | (a & b & Hab & Hb & Hs)];
      rewrite Hs in Hv.
    + destruct (Z.ltb_spec (-1) (Z.of_nat (length x))); [|lia].
      replace (Z.to_nat (-1 + 1)) with 0 in Hv by lia. rewrite drop_0 in Hv.
      rewrite Nat2Z.id, Nat.sub_0_r, take_app_length in Hv.
      destruct (existsb _ x) eqn:He.
      2:{ apply bool_decide_eq_true in Hv. by apply no_ext_not_valid in Hv. }
      rewrite drop_app_length in Hv. apply bool_decide_eq_true in Hv.
      exists [], x, (46%N :: y). split; [done|]. split; [by left|]. split.
      { intros Hin. apply H47, elem_of_app. by left. }
      split; [|done].
      apply existsb_exists in He as (c & Hc & Hc46). exists c. split; [by apply list_elem_of_In|].
      intros ->. discriminate.
    + destruct (Z.ltb_spec (Z.of_nat (length a)) (Z.of_nat (length x))) as [Hlt|Hge].
      2:{ apply bool_decide_eq_true in Hv. by apply no_ext_not_valid in Hv. }
      destruct (app_eq_app a (47%N :: b) x (46%N :: y)) as (k & [[Ha Hk]|[Hx Hk]]); [done| |].
      { exfalso. subst a. rewrite length_app in Hlt. lia. }
      destruct k as [|c stem]; [discriminate|]. injection Hk as <- ->.
      subst x. rewrite Hab in *.
      replace (Z.to_nat (Z.of_nat (length a) + 1)) with (length (a ++ [47%N])) in Hv
        by (rewrite length_app; simpl; lia).
      replace (a ++ 47%N :: stem ++ 46%N :: y) with ((a ++ [47%N]) ++ stem ++ 46%N :: y) in Hv
        by (by rewrite <- app_assoc).
      rewrite drop_app_length in Hv.
      replace (Z.to_nat (Z.of_nat (length (a ++ 47%N :: stem))) - length (a ++ [47%N]))
        with (length stem) in Hv by (rewrite !length_app; simpl; lia).
      rewrite take_app_length in Hv.
      destruct (existsb _ stem) eqn:He.
      2:{ apply bool_decide_eq_true in Hv. by apply no_ext_not_valid in Hv. }
      replace (Z.to_nat (Z.of_nat (length (a ++ 47%N :: stem)))) with (length ((a ++ [47%N]) ++ stem)) in Hv
        by (rewrite !length_app; simpl; lia).
      rewrite app_assoc, drop_app_length in Hv. apply bool_decide_eq_true in Hv.
      exists (a ++ [47%N]), stem, (46%N :: y). split; [by rewrite <- app_assoc|].
      split; [right; by exists a|]. split.
      { intros Hin. apply Hb, elem_of_app. by left. }
      split; [|done].
      apply existsb_exists in He as (c & Hc & Hc46). exists c. split; [by apply list_elem_of_In|].
      intros ->. discriminate.
  - intros (pre & stem & ext & -> & Hpre & H47 & (c & Hc & Hc46) & Hext).
    destruct (ext_shape ext Hext) as (y & -> & Hy46 & Hy47).
    assert (Hdot : rfind 46 (pre ++ stem ++ 46%N :: y) = Z.of_nat (length pre + length stem)).
    { rewrite app_assoc, rfind_last by done. by rewrite length_app. }
    assert (Hsep : rfind 47 (pre ++ stem ++ 46%N :: y) = (Z.of_nat (length pre) - 1)%Z).
    { destruct Hpre as [->|(d & ->)].
      - unfold rfind. rewrite rfind_from_absent; [done|].
        rewrite app_nil_l, elem_of_app, elem_of_cons. intros [?|[?|?]]; [done|discriminate|done].
      - rewrite <- app_assoc. cbn [app]. rewrite rfind_last.
        + rewrite length_app. simpl. lia.
        + rewrite elem_of_app, elem_of_cons. intros [?|[?|?]]; [done|discriminate|done]. }
    rewrite Hdot, Hsep.
    destruct (Z.ltb_spec (Z.of_nat (length pre) - 1) (Z.of_nat (length pre + length stem))); [|lia].
    replace (Z.to_nat (Z.of_nat (length pre) - 1 + 1)) with (length pre) by lia.
    rewrite Nat2Z.id, drop_app_length.
    replace (length pre + length stem - length pre) with (length stem) by lia.
    rewrite take_app_length.
    assert (He : existsb (λ c, negb (c =? 46)%N) stem = true).
    { apply existsb_exists. exists c. split; [by apply list_elem_of_In|].
      apply negb_true_iff, N.eqb_neq. done. }
    rewrite He. cbn [snd].
    replace (length pre + length stem) with (length (pre ++ stem)) by (by rewrite length_app).
    rewrite app_assoc, drop_app_length. by apply bool_decide_eq_true.
Qed.

Lemma detect_column_nonempty (cols pats : list ustr) (c : ustr) :
  first_matching pats [] = None → detect_column cols pats = Some c → c ≠ [].
Proof.
  intros Hp. induction cols as [|col r IH]; [done|]. cbn [detect_column].
  destruct (first_matching pats (py_strip (py_lower col))) eqn:E.
  - intros Hc Hnil. injection Hc as Hc. subst col c. change (py_strip (py_lower [])) with (@nil N) in E. congruence.
  - exact IH.
Qed.

Lemma truthy_detect (cols pats : list ustr) :
  first_matching pats [] = None → truthy (detect_column cols pats) = detect_column cols pats.
Proof.
  intros Hp. destruct (detect_column cols pats) as [c|] eqn:E; [|done].
  destruct c; [|done]. exfalso. by apply (detect_column_nonempty cols pats [] Hp E).
Qed.

(** X15: [preview_file] reports the labels found by [detect_column] unchanged
    (a detected label is never empty), and says the file is valid exactly
    when [process_excel_file] on the same sheet does not fail with a
    missing-column ValueError. *)
Theorem preview_file_detection (sh : sheet) :
  let cols := columns (read_excel_file sh) in
  pv_codigo (preview_file sh) = detect_column cols CODIGO_PATTERNS ∧
  pv_producto (preview_file sh) = detect_column cols PRODUCTO_PATTERNS ∧
  pv_cantidad (preview_file sh) = detect_column cols CANTIDAD_PATTERNS ∧
  (pv_valid (preview_file sh) = true ↔ ∀ msg, process_excel_file sh ≠ inl (ValueError msg)).
Proof.
  cbn zeta. unfold preview_file. cbn [pv_codigo pv_producto pv_cantidad pv_valid].
  split; [apply truthy_detect; by vm_compute|].
  split; [apply truthy_detect; by vm_compute|].
  split; [apply truthy_detect; by vm_compute|].
  unfold process_excel_file.
  destruct (detect_column _ CODIGO_PATTERNS) as [c|], (detect_column _ CANTIDAD_PATTERNS) as [q|];
    cbn zeta; split; try done.
  - intros _ msg. destruct (clean_dataframe _ _ _ _); discriminate.
  - intros H. exfalso. by eapply H.
  - intros H. exfalso. by eapply H.
  - intros H. exfalso. by eapply H.
Qed.

(** ** Instances of the properties above *)

Lemma compare_dataframes_rows_witness :
  let res := compare_dataframes ex_table1 ex_table2 in
  map r_code (comparison_complete res) = sort_str (dedup (codes ex_table1 ++ codes ex_table2)) ∧
  Forall (λ r, r_qty1 r = qty_of ex_table1 (r_code r) ∧ r_qty2 r = qty_of ex_table2 (r_code r) ∧
               r_diff r = (r_qty1 r - r_qty2 r)%Q ∧
               r_prod r = py_strip (if decide (prod_of ex_table1 (r_code r) = [])
                                    then prod_of ex_table2 (r_code r) else prod_of ex_table1 (r_code r)))
         (comparison_complete res) ∧
  only_differences res
  = filter (λ r, Qeq_bool (qty_of ex_table1 (r_code r)) (qty_of ex_table2 (r_code r)) = false)
      (comparison_complete res).
Proof. apply (compare_dataframes_rows ex_table1 ex_table2); refine (bool_decide_unpack _ _); vm_compute; reflexivity. Defined.

Lemma compare_dataframes_self_witness :
  let res := compare_dataframes ex_table1 ex_table1 in
  only_differences res = [] ∧ not_in_file2 res = [] ∧ not_in_file1 res = [] ∧
  map r_code (comparison_complete res) = sort_str (codes ex_table1) ∧
  Forall (λ r, r_qty1 r = r_qty2 r) (comparison_complete res).
Proof. apply (compare_dataframes_self ex_table1); refine (bool_decide_unpack _ _); vm_compute; reflexivity. Defined.

Lemma compare_dataframes_one_sided_witness :
  not_in_file2 (compare_dataframes ex_table1 ex_table2)
  = map (λ k, CanonRow k (py_strip (prod_of ex_table1 k)) (qty_of ex_table1 k))
        (sort_str (filter (λ k, k ∉ codes ex_table2) (codes ex_table1))) ∧
  not_in_file1 (compare_dataframes ex_table1 ex_table2)
  = map (λ k, CanonRow k (py_strip (prod_of ex_table2 k)) (qty_of ex_table2 k))
        (sort_str (filter (λ k, k ∉ codes ex_table1) (codes ex_table2))).
Proof. apply (compare_dataframes_one_sided ex_table1 ex_table2); refine (bool_decide_unpack _ _); vm_compute; reflexivity. Defined.

Lemma create_output_excel_messages_witness :
  let wb := create_output_excel ex_table1 ex_table2 (compare_dataframes ex_table1 ex_table2) in
  (wb !! 2%nat = Some (u "Solo Diferencias", [[XStr (u "No hay diferencias entre los archivos")]])
   ↔ ∀ k, k ∈ codes ex_table1 ∨ k ∈ codes ex_table2 → (qty_of ex_table1 k == qty_of ex_table2 k)%Q) ∧
  (wb !! 3%nat = Some (u "No Coinciden Archivo1",
                       [[XStr (u "Todos los códigos del Archivo 1 están en el Archivo 2")]])
   ↔ ∀ k, k ∈ codes ex_table1 → k ∈ codes ex_table2) ∧
  (wb !! 4%nat = Some (u "No Coinciden Archivo2",
                       [[XStr (u "Todos los códigos del Archivo 2 están en el Archivo 1")]])
   ↔ ∀ k, k ∈ codes ex_table2 → k ∈ codes ex_table1).
Proof. apply (create_output_excel_messages ex_table1 ex_table2); refine (bool_decide_unpack _ _); vm_compute; reflexivity. Defined.
